(** * GroupService (service/group-service): group lifecycle, membership
      diffing and external-group reconciliation over injected stores.

    The service is a sequence of awaited store calls with local validation
    in between.  It is embedded as a program over the store interface: a
    finite tree of awaited store operations, local [throw]s and returns.
    A store is a handler that answers each operation on its own state; a
    run of a program against a store yields the outcome, the final store
    state and the trace of store calls that were issued, in order. *)

From Stdlib Require Import ZArith List String Bool Lia.
Import ListNotations.
Open Scope string_scope.
Open Scope Z_scope.
Open Scope list_scope.

Set Implicit Arguments.

(** ** Data model (types/group, types/user, types/events) *)

Record IUser := mkUser {
  u_id : Z;
  u_name : string
}.

(** A persisted group. *)
Record IGroup := mkGroup {
  g_id : Z;
  g_name : string;
  g_description : string;
  g_rootRole : option Z
}.

(** One element of the desired member list of a create/update payload:
    [{ user: { id } }]. *)
Record ICreateGroupUserModel := mkCreateUser {
  cu_user : IUser
}.

(** Payload of [createGroup] and [updateGroup].  [id] and [rootRole] are
    optional numbers; [None] is JavaScript's [undefined]. *)
Record ICreateGroupModel := mkCreateGroup {
  cg_id : option Z;
  cg_name : string;
  cg_description : string;
  cg_rootRole : option Z;
  cg_users : list ICreateGroupUserModel
}.

(** Membership row. *)
Record IGroupUser := mkGroupUser {
  gu_groupId : Z;
  gu_userId : Z;
  gu_joinedAt : Z;
  gu_createdBy : option string
}.

Record IGroupProject := mkGroupProject {
  gp_groupId : Z;
  gp_project : string
}.

Record IGroupRole := mkGroupRole {
  gr_name : string;
  gr_groupId : Z;
  gr_roleId : Z;
  gr_createdAt : Z
}.

(** A resolved member of a group view. *)
Record IGroupUserModel := mkGroupUserModel {
  gum_user : IUser;
  gum_joinedAt : Z;
  gum_createdBy : option string
}.

(** [{ ...group, users, projects? }]: the spread of the group's own fields
    is kept as the field [gm_group]; [projects] is absent ([None]) until
    [mapGroupWithProjects] sets it. *)
Record IGroupModel := mkGroupModel {
  gm_group : IGroup;
  gm_users : list IGroupUserModel;
  gm_projects : option (list string)
}.

Record IGroupModelWithProjectRole := mkGroupModelWithProjectRole {
  gmr_model : IGroupModel;
  gmr_roleId : Z;
  gmr_addedAt : Z
}.

Inductive EventType := GROUP_CREATED | GROUP_UPDATED.

Inductive EventData :=
| DataInput (g : ICreateGroupModel)
| DataGroup (g : IGroup).

Record IEvent := mkEvent {
  ev_type : EventType;
  ev_createdBy : string;
  ev_data : EventData;
  ev_preData : option IGroup
}.

(** The [externalGroups] argument of [syncExternalGroups] as it arrives at
    run time: declared [string[]], tested with [Array.isArray]. *)
Inductive JsValue :=
| JsUndefined
| JsNull
| JsBoolean (b : bool)
| JsNumber (n : Z)
| JsString (s : string)
| JsArray (items : list string).

Definition isArray (v : JsValue) : bool :=
  match v with JsArray _ => true | _ => false end.

(** The elements of a value that is an array. *)
Definition array_items (v : JsValue) : list string :=
  match v with JsArray items => items | _ => [] end.

(** JavaScript truthiness of an optional number and of a string. *)
Definition truthy_num (n : option Z) : bool :=
  match n with Some k => negb (k =? 0) | None => false end.

Definition truthy_string (s : string) : bool :=
  negb (s =? "")%string.

(** ** Errors *)

(** Errors raised by the service itself.  [TypeError] is the runtime error
    of reading a property of [undefined]. *)
Inductive ServiceError :=
| BadDataError (msg : string)
| NameExistsError (msg : string)
| TypeError (msg : string).

(** Errors that originate in a store and pass through unmodified. *)
Inductive StoreError :=
| NotFoundError (msg : string)
| StoreFailure (msg : string).

(** ** The store interface (IGroupStore, IAccountStore, IEventStore) *)

Inductive storeOp : Type -> Type :=
(* groupStore *)
| GetAll : storeOp (list IGroup)
| GetAllWithId (ids : list Z) : storeOp (list IGroup)
| GetAllUsersByGroups (ids : list (option Z)) : storeOp (list IGroupUser)
| GetGroupProjects (ids : list Z) : storeOp (list IGroupProject)
| Get (id : option Z) : storeOp IGroup
| Create (g : ICreateGroupModel) : storeOp IGroup
| Update (g : ICreateGroupModel) : storeOp IGroup
| Delete (id : Z) : storeOp unit
| AddUsersToGroup (gid : Z) (users : list ICreateGroupUserModel)
    (userName : string) : storeOp unit
| UpdateGroupUsers (gid : Z) (newUsers : list ICreateGroupUserModel)
    (deletableUsers : list IGroupUser) (userName : string) : storeOp unit
| GetProjectGroupRoles (projectId : option string) : storeOp (list IGroupRole)
| ExistsWithName (name : string) : storeOp bool
| HasProjectRole (gid : Z) : storeOp bool
| GetNewGroupsForExternalUser (userId : Z) (externalGroups : list string)
    : storeOp (list IGroup)
| AddUserToGroups (userId : Z) (gids : list Z) (createdBy : option string)
    : storeOp unit
| GetOldGroupsForExternalUser (userId : Z) (externalGroups : list string)
    : storeOp (list IGroupUser)
| DeleteUsersFromGroup (rows : list IGroupUser) : storeOp unit
| GetGroupsForUser (userId : Z) : storeOp (list IGroup)
(* accountStore *)
| AccountGetAllWithId (ids : list Z) : storeOp (list IUser)
(* eventStore *)
| EventStore (e : IEvent) : storeOp unit.

(** Operations that persist something. *)
Definition is_write {X} (op : storeOp X) : bool :=
  match op with
  | Create _ | Update _ | Delete _ | AddUsersToGroup _ _ _
  | UpdateGroupUsers _ _ _ _ | AddUserToGroups _ _ _
  | DeleteUsersFromGroup _ | EventStore _ => true
  | _ => false
  end.

(** ** Programs over the store interface *)

Inductive prog (A : Type) : Type :=
| Ret (a : A)
| Throw (e : ServiceError)
| Await (X : Type) (op : storeOp X) (k : X -> prog A).

Arguments Ret {A} a.
Arguments Throw {A} e.
Arguments Await {A X} op k.

Fixpoint bind {A B} (m : prog A) (f : A -> prog B) : prog B :=
  match m with
  | Ret a => f a
  | Throw e => Throw e
  | Await op k => Await op (fun x => bind (k x) f)
  end.

Definition await {X} (op : storeOp X) : prog X := Await op Ret.

Declare Scope prog_scope.
Delimit Scope prog_scope with prog.
Notation "x <- m ;; k" := (bind m (fun x => k))
  (at level 61, m at next level, right associativity) : prog_scope.
Notation "m ;; k" := (bind m (fun _ => k))
  (at level 61, right associativity) : prog_scope.
Open Scope prog_scope.

(** A store: its state and how it answers each operation. *)
Definition Handler (S : Type) : Type :=
  forall X, storeOp X -> S -> (StoreError + X) * S.

(** One awaited store call together with the store's answer. *)
Inductive event : Type :=
| Ev (X : Type) (op : storeOp X) (answer : StoreError + X).

Arguments Ev {X} op answer.

Inductive Outcome (A : Type) : Type :=
| Done (a : A)
| Thrown (e : ServiceError)
| Rejected (e : StoreError).

Arguments Done {A} a.
Arguments Thrown {A} e.
Arguments Rejected {A} e.

Record Run (S A : Type) := mkRun {
  outcome : Outcome A;
  final : S;
  trace : list event
}.

Definition logged {S A} (e : event) (r : Run S A) : Run S A :=
  mkRun (outcome r) (final r) (e :: trace r).

Fixpoint run {S A} (h : Handler S) (p : prog A) (s : S) : Run S A :=
  match p with
  | Ret a => mkRun (Done a) s []
  | Throw e => mkRun (Thrown e) s []
  | Await op k =>
      match h _ op s with
      | (inr x, s') => logged (Ev op (inr x)) (run h (k x) s')
      | (inl e, s') => mkRun (Rejected e) s' [Ev op (inl e)]
      end
  end.

Definition ev_is_write (e : event) : bool :=
  match e with Ev op _ => is_write op end.

Definition writes (t : list event) : list event := filter ev_is_write t.

(** ** GroupService *)

Definition conflict_msg : string :=
  "This group already has a project role and cannot also be given a root role".

Definition validateGroup (group : ICreateGroupModel)
    (existingGroup : option IGroup) : prog unit :=
  (if negb (truthy_string (cg_name group))
   then Throw (BadDataError "Group name cannot be empty")
   else Ret tt) ;;
  (if match existingGroup with
      | None => true
      | Some existing => negb (g_name existing =? cg_name group)%string
      end
   then
     taken <- await (ExistsWithName (cg_name group)) ;;
     if (taken : bool) then Throw (NameExistsError "Group name already exists")
     else Ret tt
   else Ret tt) ;;
  match cg_id group with
  | Some gid =>
      if truthy_num (cg_id group) && truthy_num (cg_rootRole group)
      then
        has <- await (HasProjectRole gid) ;;
        if (has : bool) then Throw (BadDataError conflict_msg) else Ret tt
      else Ret tt
  | None => Ret tt
  end.

(** [Array.prototype.includes] on numbers. *)
Definition includes (l : list Z) (x : Z) : bool := existsb (Z.eqb x) l.

(** [Array.prototype.map] with a callback that may throw: the first
    callback that throws aborts the whole map. *)
Fixpoint mapP {A B} (f : A -> prog B) (l : list A) : prog (list B) :=
  match l with
  | [] => Ret []
  | a :: rest => b <- f a ;; bs <- mapP f rest ;; Ret (b :: bs)
  end.

Definition mapGroupWithUsers (group : IGroup)
    (allGroupUsers : list IGroupUser) (allUsers : list IUser)
    : prog IGroupModel :=
  let groupUsers :=
    filter (fun user => gu_groupId user =? g_id group) allGroupUsers in
  let groupUsersId := map gu_userId groupUsers in
  let selectedUsers :=
    filter (fun user => includes groupUsersId (u_id user)) allUsers in
  finalUsers <-
    mapP (fun user =>
            match find (fun gu => gu_userId gu =? u_id user) groupUsers with
            | Some roleUser =>
                Ret (mkGroupUserModel user (gu_joinedAt roleUser)
                       (gu_createdBy roleUser))
            | None =>
                Throw (TypeError
                  "Cannot read properties of undefined (reading 'joinedAt')")
            end)
         selectedUsers ;;
  Ret (mkGroupModel group finalUsers None).

Definition mapGroupWithProjects (groupProjects : list IGroupProject)
    (group : IGroupModel) : IGroupModel :=
  mkGroupModel (gm_group group) (gm_users group)
    (Some (map gp_project
             (filter (fun project =>
                        gp_groupId project =? g_id (gm_group group))
                     groupProjects))).

Definition getAll : prog (list IGroupModel) :=
  groups <- await GetAll ;;
  allGroupUsers <-
    await (GetAllUsersByGroups (map (fun g => Some (g_id g)) groups)) ;;
  users <- await (AccountGetAllWithId (map gu_userId allGroupUsers)) ;;
  groupProjects <- await (GetGroupProjects (map g_id groups)) ;;
  mapP (fun group =>
          mappedGroup <- mapGroupWithUsers group allGroupUsers users ;;
          Ret (mapGroupWithProjects groupProjects mappedGroup))
       groups.

Definition getGroup (id : Z) : prog IGroupModel :=
  group <- await (Get (Some id)) ;;
  groupUsers <- await (GetAllUsersByGroups [Some id]) ;;
  users <- await (AccountGetAllWithId (map gu_userId groupUsers)) ;;
  mapGroupWithUsers group groupUsers users.

Definition createGroup (group : ICreateGroupModel) (userName : string)
    : prog IGroup :=
  validateGroup group None ;;
  newGroup <- await (Create group) ;;
  await (AddUsersToGroup (g_id newGroup) (cg_users group) userName) ;;
  await (EventStore
           (mkEvent GROUP_CREATED userName (DataInput group) None)) ;;
  Ret newGroup.

(** The two sides of the membership diff computed by [updateGroup]. *)
Definition deletableUsers (group : ICreateGroupModel)
    (existingUsers : list IGroupUser) : list IGroupUser :=
  filter (fun existingUser =>
            negb (existsb (fun groupUser =>
                             u_id (cu_user groupUser) =? gu_userId existingUser)
                          (cg_users group)))
         existingUsers.

Definition newUsers (group : ICreateGroupModel)
    (existingUsers : list IGroupUser) : list ICreateGroupUserModel :=
  let existingUserIds := map gu_userId existingUsers in
  filter (fun user => negb (includes existingUserIds (u_id (cu_user user))))
         (cg_users group).

Definition updateGroup (group : ICreateGroupModel) (userName : string)
    : prog IGroup :=
  preData <- await (Get (cg_id group)) ;;
  validateGroup group (Some preData) ;;
  newGroup <- await (Update group) ;;
  existingUsers <- await (GetAllUsersByGroups [cg_id group]) ;;
  await (UpdateGroupUsers (g_id newGroup)
           (newUsers group existingUsers)
           (deletableUsers group existingUsers)
           userName) ;;
  await (EventStore
           (mkEvent GROUP_UPDATED userName (DataGroup newGroup)
              (Some preData))) ;;
  Ret newGroup.

Definition getProjectGroups (projectId : option string)
    : prog (list IGroupModelWithProjectRole) :=
  groupRoles <- await (GetProjectGroupRoles projectId) ;;
  if (0 <? List.length groupRoles)%nat then
    groups <- await (GetAllWithId (map gr_groupId groupRoles)) ;;
    groupUsers <-
      await (GetAllUsersByGroups (map (fun g => Some (g_id g)) groups)) ;;
    users <- await (AccountGetAllWithId (map gu_userId groupUsers)) ;;
    mapP (fun group =>
            let groupRole :=
              find (fun g => gr_groupId g =? g_id group) groupRoles in
            model <- mapGroupWithUsers group groupUsers users ;;
            match groupRole with
            | Some role =>
                Ret (mkGroupModelWithProjectRole model (gr_roleId role)
                       (gr_createdAt role))
            | None =>
                Throw (TypeError
                  "Cannot read properties of undefined (reading 'roleId')")
            end)
         groups
  else Ret [].

Definition deleteGroup (id : Z) : prog unit := await (Delete id).

Definition getRolesForProject (projectId : string) : prog (list IGroupRole) :=
  await (GetProjectGroupRoles (Some projectId)).

Definition syncExternalGroups (userId : Z) (externalGroups : JsValue)
    (createdBy : option string) : prog unit :=
  if isArray externalGroups then
    let names := array_items externalGroups in
    newGroups <- await (GetNewGroupsForExternalUser userId names) ;;
    await (AddUserToGroups userId (map g_id newGroups) createdBy) ;;
    oldGroups <- await (GetOldGroupsForExternalUser userId names) ;;
    await (DeleteUsersFromGroup oldGroups)
  else Ret tt.

Definition getGroupsForUser (userId : Z) : prog (list IGroup) :=
  await (GetGroupsForUser userId).

(** ** An in-memory store *)

Module Mem.

Record Store := mkStore {
  groups : list IGroup;
  groupUsers : list IGroupUser;
  groupProjects : list IGroupProject;
  groupRoles : list (string * IGroupRole);   (* project, role association *)
  accounts : list IUser;
  events : list IEvent;
  nextId : Z;
  now : Z
}.

Definition set_groups (gs : list IGroup) (n : Z) (s : Store) : Store :=
  mkStore gs (groupUsers s) (groupProjects s) (groupRoles s) (accounts s)
    (events s) n (now s).

Definition set_groupUsers (rows : list IGroupUser) (t : Z) (s : Store)
    : Store :=
  mkStore (groups s) rows (groupProjects s) (groupRoles s) (accounts s)
    (events s) (nextId s) t.

Definition same_key (a b : IGroupUser) : bool :=
  (gu_groupId a =? gu_groupId b) && (gu_userId a =? gu_userId b).

Definition is_member (s : Store) (gid uid : Z) : bool :=
  existsb (fun r => (gu_groupId r =? gid) && (gu_userId r =? uid))
    (groupUsers s).

Definition insert_rows (rows : list IGroupUser) (s : Store) : Store :=
  set_groupUsers (groupUsers s ++ rows)
    (now s + Z.of_nat (List.length rows)) s.

Definition delete_rows (rows : list IGroupUser) (s : Store) : Store :=
  set_groupUsers
    (filter (fun r => negb (existsb (same_key r) rows)) (groupUsers s))
    (now s) s.

Definition in_ids (ids : list (option Z)) (x : Z) : bool :=
  existsb (fun i => match i with Some k => k =? x | None => false end) ids.

Section Handler.

(** Which groups an external group-name list implies. *)
Variable implied : IGroup -> list string -> bool.

Definition group_implied (s : Store) (gid : Z) (names : list string) : bool :=
  existsb (fun g => (g_id g =? gid) && implied g names) (groups s).

Definition newGroupsFor (s : Store) (uid : Z) (names : list string)
    : list IGroup :=
  filter (fun g => implied g names && negb (is_member s (g_id g) uid))
         (groups s).

Definition oldGroupsFor (s : Store) (uid : Z) (names : list string)
    : list IGroupUser :=
  filter (fun r => (gu_userId r =? uid)
                   && negb (group_implied s (gu_groupId r) names))
         (groupUsers s).

(** The store after the additions of a synchronisation of [uid] with
    [names], and after its removals. *)
Definition added (uid : Z) (names : list string) (createdBy : option string)
    (s : Store) : Store :=
  insert_rows
    (map (fun gid => mkGroupUser gid uid (now s) createdBy)
       (map g_id (newGroupsFor s uid names))) s.

Definition reconciled (uid : Z) (names : list string)
    (createdBy : option string) (s : Store) : Store :=
  delete_rows (oldGroupsFor (added uid names createdBy s) uid names)
    (added uid names createdBy s).

(** Modelled from the spec: the implementations of IGroupStore,
    IAccountStore and IEventStore are not part of the sources; this
    in-memory store follows the spec's description of them (CRUD,
    membership rows, project and role associations, the name-existence
    check, bulk user lookup by id list, an append-only event log, and for
    external sync: the groups newly implied by the external list and not
    currently associated, and the memberships currently associated but no
    longer implied by it). *)
Definition handler : Handler Store :=
  fun X (op : storeOp X) (s : Store) =>
    match op in storeOp T return (StoreError + T) * Store with
    | GetAll => (inr (groups s), s)
    | GetAllWithId ids =>
        (inr (filter (fun g => includes ids (g_id g)) (groups s)), s)
    | GetAllUsersByGroups ids =>
        (inr (filter (fun r => in_ids ids (gu_groupId r)) (groupUsers s)), s)
    | GetGroupProjects ids =>
        (inr (filter (fun p => includes ids (gp_groupId p))
                (groupProjects s)), s)
    | Get id =>
        match find (fun g => in_ids [id] (g_id g)) (groups s) with
        | Some g => (inr g, s)
        | None => (inl (NotFoundError "No group with that id"), s)
        end
    | Create g =>
        let created :=
          mkGroup (nextId s) (cg_name g) (cg_description g) (cg_rootRole g) in
        (inr created, set_groups (groups s ++ [created]) (nextId s + 1) s)
    | Update g =>
        match find (fun old => in_ids [cg_id g] (g_id old)) (groups s) with
        | Some old =>
            let updated :=
              mkGroup (g_id old) (cg_name g) (cg_description g)
                (cg_rootRole g) in
            (inr updated,
             set_groups
               (map (fun x => if g_id x =? g_id old then updated else x)
                  (groups s))
               (nextId s) s)
        | None => (inl (NotFoundError "No group with that id"), s)
        end
    | Delete id =>
        (inr tt,
         mkStore (filter (fun g => negb (g_id g =? id)) (groups s))
           (filter (fun r => negb (gu_groupId r =? id)) (groupUsers s))
           (filter (fun p => negb (gp_groupId p =? id)) (groupProjects s))
           (filter (fun pr => negb (gr_groupId (snd pr) =? id))
              (groupRoles s))
           (accounts s) (events s) (nextId s) (now s))
    | AddUsersToGroup gid users userName =>
        (inr tt,
         insert_rows
           (map (fun u => mkGroupUser gid (u_id (cu_user u)) (now s)
                            (Some userName)) users) s)
    | UpdateGroupUsers gid added removed userName =>
        (inr tt,
         delete_rows removed
           (insert_rows
              (map (fun u => mkGroupUser gid (u_id (cu_user u)) (now s)
                               (Some userName)) added) s))
    | GetProjectGroupRoles projectId =>
        (inr (map snd
                (filter (fun pr =>
                           match projectId with
                           | Some p => (fst pr =? p)%string
                           | None => true
                           end)
                   (groupRoles s))), s)
    | ExistsWithName name =>
        (inr (existsb (fun g => (g_name g =? name)%string) (groups s)), s)
    | HasProjectRole gid =>
        (inr (existsb (fun pr => gr_groupId (snd pr) =? gid) (groupRoles s)),
         s)
    | GetNewGroupsForExternalUser uid names =>
        (inr (newGroupsFor s uid names), s)
    | AddUserToGroups uid gids createdBy =>
        (inr tt,
         insert_rows
           (map (fun gid => mkGroupUser gid uid (now s) createdBy) gids) s)
    | GetOldGroupsForExternalUser uid names =>
        (inr (oldGroupsFor s uid names), s)
    | DeleteUsersFromGroup rows => (inr tt, delete_rows rows s)
    | GetGroupsForUser uid =>
        (inr (filter (fun g => is_member s (g_id g) uid) (groups s)), s)
    | AccountGetAllWithId ids =>
        (inr (filter (fun u => includes ids (u_id u)) (accounts s)), s)
    | EventStore e =>
        (inr tt,
         mkStore (groups s) (groupUsers s) (groupProjects s) (groupRoles s)
           (accounts s) (events s ++ [e]) (nextId s) (now s))
    end.

End Handler.

(** The instance used in examples: a group is implied by an external list
    that contains its name. *)
Definition by_name (g : IGroup) (names : list string) : bool :=
  existsb (String.eqb (g_name g)) names.

End Mem.

(** ** Example data *)

Module Demo.

Definition alice := mkUser 1 "alice".
Definition bob := mkUser 2 "bob".
Definition carol := mkUser 3 "carol".
Definition dave := mkUser 4 "dave".

(** Two groups; group 1 has members alice, bob and carol and a project
    role in project "default"; group 2 has member alice only. *)
Definition store : Mem.Store :=
  Mem.mkStore
    [mkGroup 1 "devs" "developers" None; mkGroup 2 "ops" "operators" None]
    [mkGroupUser 1 1 10 (Some "admin"); mkGroupUser 1 2 11 (Some "admin");
     mkGroupUser 1 3 12 None; mkGroupUser 2 1 13 (Some "sso")]
    [mkGroupProject 1 "default"; mkGroupProject 2 "infra";
     mkGroupProject 1 "web"]
    [("default", mkGroupRole "Member" 1 5 20)]
    [alice; bob; carol; dave]
    [] 3 100.

Definition h : Handler Mem.Store := Mem.handler Mem.by_name.

Definition devs : IGroup := mkGroup 1 "devs" "developers" None.

(** The membership rows of group 1 in [store]. *)
Definition devs_rows : list IGroupUser :=
  [mkGroupUser 1 1 10 (Some "admin"); mkGroupUser 1 2 11 (Some "admin");
   mkGroupUser 1 3 12 None].

(** Update payloads for group 1. *)
Definition rooted : ICreateGroupModel :=
  mkCreateGroup (Some 1) "devs" "developers" (Some 9) [].

Definition rooted_and_renamed : ICreateGroupModel :=
  mkCreateGroup (Some 1) "ops" "developers" (Some 9) [].

Definition bob_carol_dave : ICreateGroupModel :=
  mkCreateGroup (Some 1) "devs" "developers" None
    [mkCreateUser bob; mkCreateUser carol; mkCreateUser dave].

(** Update payload for group 2, which has no project role. *)
Definition rooted_ops : ICreateGroupModel :=
  mkCreateGroup (Some 2) "ops" "operators" (Some 9) [mkCreateUser alice].

(** Create payload. *)
Definition qa : ICreateGroupModel :=
  mkCreateGroup None "qa" "testers" None [mkCreateUser dave].

End Demo.

(** ** Running programs *)

Definition ev_is_existsWithName (e : event) : bool :=
  match e with
  | Ev op _ => match op with ExistsWithName _ => true | _ => false end
  end.

Definition ev_is_hasProjectRole (e : event) : bool :=
  match e with
  | Ev op _ => match op with HasProjectRole _ => true | _ => false end
  end.

(** A store whose read operations leave its state alone. *)
Definition reads_preserve_state {S} (h : Handler S) : Prop :=
  forall X (op : storeOp X) s, is_write op = false -> snd (h X op s) = s.

Definition then_run {S A B} (h : Handler S) (r : Run S A) (f : A -> prog B)
    : Run S B :=
  match outcome r with
  | Done a =>
      let r' := run h (f a) (final r) in
      mkRun (outcome r') (final r') (trace r ++ trace r')
  | Thrown e => mkRun (Thrown e) (final r) (trace r)
  | Rejected e => mkRun (Rejected e) (final r) (trace r)
  end.

(** The [updateGroupUsers] calls of a trace, with their arguments. *)
Definition ev_updateGroupUsers (e : event)
    : option (Z * list ICreateGroupUserModel * list IGroupUser * string) :=
  match e with
  | Ev op _ =>
      match op with
      | UpdateGroupUsers gid added removed userName =>
          Some (gid, added, removed, userName)
      | _ => None
      end
  end.

Fixpoint updateGroupUsers_calls (t : list event)
    : list (Z * list ICreateGroupUserModel * list IGroupUser * string) :=
  match t with
  | [] => []
  | e :: rest =>
      match ev_updateGroupUsers e with
      | Some c => c :: updateGroupUsers_calls rest
      | None => updateGroupUsers_calls rest
      end
  end.

(** The user ids of the desired member list of a payload. *)
Definition desiredIds (group : ICreateGroupModel) : list Z :=
  map (fun u => u_id (cu_user u)) (cg_users group).

(** What it means for a group view [m] to be the group [g] annotated with
    exactly its own members and projects, given the membership rows, the
    resolved users and the group-project associations the store returned:
    - [m] carries the fields of [g];
    - an entry is in [users] exactly when its user is among the resolved
      users and its [joinedAt] and [createdBy] are those of the first
      membership row with the group's id and that user's id;
    - so every entry stems from a membership row that carries the group's
      id, and every resolved user with such a row has an entry;
    - a project id is in [projects] exactly when some group-project
      association carries the group's id and that project id. *)
Definition exact_view (allGroupUsers : list IGroupUser)
    (users : list IUser) (groupProjects : list IGroupProject)
    (g : IGroup) (m : IGroupModel) : Prop :=
  gm_group m = g /\
  (forall e,
      In e (gm_users m) <->
      In (gum_user e) users /\
      exists row,
        find (fun r => (gu_groupId r =? g_id g)
                       && (gu_userId r =? u_id (gum_user e)))
             allGroupUsers = Some row /\
        gum_joinedAt e = gu_joinedAt row /\
        gum_createdBy e = gu_createdBy row) /\
  (forall e,
      In e (gm_users m) ->
      exists row,
        In row allGroupUsers /\ gu_groupId row = g_id g /\
        gu_userId row = u_id (gum_user e) /\
        gum_joinedAt e = gu_joinedAt row /\
        gum_createdBy e = gu_createdBy row) /\
  (forall user row,
      In user users -> In row allGroupUsers ->
      gu_groupId row = g_id g -> gu_userId row = u_id user ->
      exists e, In e (gm_users m) /\ gum_user e = user) /\
  (exists projects,
      gm_projects m = Some projects /\
      forall p,
        In p projects <->
        exists gp, In gp groupProjects /\ gp_groupId gp = g_id g /\
                   gp_project gp = p).

(** The errors [validateGroup] raises. *)
Definition validation_error (e : ServiceError) : Prop :=
  e = BadDataError "Group name cannot be empty" \/
  e = NameExistsError "Group name already exists" \/
  e = BadDataError conflict_msg.

(** The events a trace recorded: the [eventStore.store] calls the store
    accepted, in order. *)
Definition ev_stored (e : event) : option IEvent :=
  match e with
  | Ev op answer =>
      match op in storeOp T return StoreError + T -> option IEvent with
      | EventStore stored =>
          fun a => match a with inr _ => Some stored | inl _ => None end
      | _ => fun _ => None
      end answer
  end.

Fixpoint stored_events (t : list event) : list IEvent :=
  match t with
  | [] => []
  | e :: rest =>
      match ev_stored e with
      | Some stored => stored :: stored_events rest
      | None => stored_events rest
      end
  end.

(** Whether a user has a membership row in a group. *)
Definition has_row (rows : list IGroupUser) (gid uid : Z) : bool :=
  existsb (fun r => (gu_groupId r =? gid) && (gu_userId r =? uid)) rows.

(** A program all of whose store calls are reads. *)
Fixpoint reads_only {A} (p : prog A) : Prop :=
  match p with
  | Ret _ | Throw _ => True
  | Await op k => is_write op = false /\ forall x, reads_only (k x)
  end.

(** A program all of whose [throw]s raise an error in [P]. *)
Fixpoint throws_only {A} (P : ServiceError -> Prop) (p : prog A) : Prop :=
  match p with
  | Ret _ => True
  | Throw e => P e
  | Await _ k => forall x, throws_only P (k x)
  end.

(** Case analysis on the answers of the store along a run. *)
Ltac answer h :=
  match goal with
  | |- context [h ?X ?op ?s] =>
      let e := fresh "e" in let x := fresh "x" in
      let s' := fresh "s" in let E := fresh "E" in
      destruct (h X op s) as [[e | x] s'] eqn:E; simpl
  end.

(** Walks through the branches of [validateGroup], asking the store where
    the code does; [fin] closes each leaf. *)
Ltac validate_cases h group existingGroup fin :=
  unfold validateGroup;
  destruct (negb (truthy_string (cg_name group))); simpl; [fin | ];
  destruct (match existingGroup with
            | Some existing => negb (g_name existing =? cg_name group)%string
            | None => true
            end); simpl;
  [ answer h; [fin | ];
    match goal with x : bool |- _ => destruct x; simpl; [fin | ] end
  | ];
  (destruct (cg_id group) as [gid |]; simpl; [ | fin ];
   destruct (gid =? 0); simpl; [fin | ];
   destruct (truthy_num (cg_rootRole group)); simpl; [ | fin ];
   answer h; [fin | ];
   match goal with x : bool |- _ => destruct x; simpl; fin end).

Lemma run_bind {S A B} (h : Handler S) (m : prog A) (f : A -> prog B) s :
  run h (bind m f) s = then_run h (run h m s) f.
Proof.
  revert s. induction m as [a | e | X op k IH]; intros s; simpl.
  - unfold then_run; simpl. now destruct (run h (f a) s).
  - reflexivity.
  - destruct (h X op s) as [[err | x] s'].
    + reflexivity.
    + rewrite IH. unfold then_run, logged; simpl.
      now destruct (outcome (run h (k x) s')).
Qed.

Lemma run_await {S X} (h : Handler S) (op : storeOp X) s :
  run h (await op) s =
  match h X op s with
  | (inr x, s') => mkRun (Done x) s' [Ev op (inr x)]
  | (inl e, s') => mkRun (Rejected e) s' [Ev op (inl e)]
  end.
Proof. unfold await; simpl. now destruct (h X op s) as [[e | x] s']. Qed.

Lemma writes_app t1 t2 : writes (t1 ++ t2) = writes t1 ++ writes t2.
Proof. apply filter_app. Qed.

Lemma Mem_reads_preserve_state implied :
  reads_preserve_state (Mem.handler implied).
Proof.
  intros X op s Hw.
  destruct op; simpl in *; try discriminate; try reflexivity.
  now destruct (find _ _).
Qed.

(** ** Validation *)

(** C4: for every input group whose name is empty, [createGroup] fails with
    the data-validation error whatever the other fields, the actor and the
    store are; no store call is issued and the store state is the initial
    one. *)
Theorem createGroup_empty_name :
  forall S (h : Handler S) (s : S) (group : ICreateGroupModel) userName,
    cg_name group = "" ->
    run h (createGroup group userName) s =
    mkRun (Thrown (BadDataError "Group name cannot be empty")) s [].
Proof.
  intros S h s group userName Hname.
  unfold createGroup, validateGroup, truthy_string.
  rewrite Hname. reflexivity.
Qed.

Lemma createGroup_empty_name_witness :
  run Demo.h
    (createGroup (mkCreateGroup (Some 7) "" "anything" (Some 3)
                    [mkCreateUser Demo.alice]) "admin")
    Demo.store =
  mkRun (Thrown (BadDataError "Group name cannot be empty")) Demo.store [].
Proof. apply createGroup_empty_name. reflexivity. Defined.

(** C10, amended: for every input group whose id is absent or falsy,
    [validateGroup] never asks the store for the group's project role and
    never raises the root-role/project-role conflict error, whatever the
    root role of the input and whatever the store would answer; the same
    holds for [createGroup] on such an input.  The check is guarded on the
    id of the payload, not on the operation. *)
Theorem validateGroup_conflict_check_guarded_on_id :
  forall S (h : Handler S) (s : S) (group : ICreateGroupModel)
         (existingGroup : option IGroup) userName,
    truthy_num (cg_id group) = false ->
    let v := run h (validateGroup group existingGroup) s in
    let c := run h (createGroup group userName) s in
    filter ev_is_hasProjectRole (trace v) = [] /\
    outcome v <> Thrown (BadDataError conflict_msg) /\
    filter ev_is_hasProjectRole (trace c) = [] /\
    outcome c <> Thrown (BadDataError conflict_msg).
Proof.
  intros S h s group existingGroup userName Hid.
  assert (Hv : forall ex,
             filter ev_is_hasProjectRole
               (trace (run h (validateGroup group ex) s)) = [] /\
             outcome (run h (validateGroup group ex) s)
               <> Thrown (BadDataError conflict_msg)).
  { intros ex. unfold validateGroup.
    destruct (cg_id group) as [gid |] eqn:Egid;
      [rewrite Hid | ]; simpl;
      destruct (negb (truthy_string (cg_name group))); simpl;
      try (split; [reflexivity | discriminate]);
      destruct ex as [existing |]; simpl;
      try destruct (negb (g_name existing =? cg_name group)%string); simpl;
      try (split; [reflexivity | discriminate]);
      answer h; try (split; [reflexivity | discriminate]);
      destruct x; simpl; split; try reflexivity; discriminate. }
  cbv zeta. split; [apply Hv | split; [apply Hv | ]].
  unfold createGroup. rewrite run_bind. unfold then_run.
  destruct (Hv None) as [Ht Ho].
  destruct (outcome (run h (validateGroup group None) s)) as [[] | e | e]
    eqn:Eo; simpl; try (split; [exact Ht | congruence]).
  rewrite filter_app, Ht. simpl.
  repeat (answer h; try (split; [reflexivity | discriminate])).
Qed.

Lemma validateGroup_conflict_check_guarded_on_id_witness :
  let group := mkCreateGroup None "devs2" "d" (Some 9) [] in
  let v := run Demo.h (validateGroup group None) Demo.store in
  let c := run Demo.h (createGroup group "admin") Demo.store in
  filter ev_is_hasProjectRole (trace v) = [] /\
  outcome v <> Thrown (BadDataError conflict_msg) /\
  filter ev_is_hasProjectRole (trace c) = [] /\
  outcome c <> Thrown (BadDataError conflict_msg).
Proof.
  apply (@validateGroup_conflict_check_guarded_on_id _ Demo.h Demo.store
           (mkCreateGroup None "devs2" "d" (Some 9) []) None "admin").
  reflexivity.
Defined.

(** For C10, the claim as first stated: no [createGroup] input ever meets
    the conflict check.  It does not hold: [createGroup] hands its payload
    to [validateGroup] as it is, so a payload that carries the id of group
    1 (which has a project role) and a root role is checked and fails with
    the conflict error. *)
Lemma createGroup_with_id_meets_conflict_check :
  ~ (forall S (h : Handler S) (s : S) (group : ICreateGroupModel) userName,
        outcome (run h (createGroup group userName) s)
        <> Thrown (BadDataError conflict_msg)).
Proof.
  intros claim.
  apply (claim _ Demo.h Demo.store
           (mkCreateGroup (Some 1) "fresh" "new group" (Some 9) []) "admin").
  reflexivity.
Qed.

Example createGroup_with_id_run :
  run Demo.h
    (createGroup (mkCreateGroup (Some 1) "fresh" "new group" (Some 9) [])
       "admin") Demo.store =
  mkRun (Thrown (BadDataError conflict_msg)) Demo.store
    [Ev (ExistsWithName "fresh") (inr false);
     Ev (HasProjectRole 1) (inr true)].
Proof. reflexivity. Qed.

Lemma read_keeps_state S (h : Handler S) X (op : storeOp X) s a s' :
  reads_preserve_state h -> is_write op = false -> h X op s = (a, s') ->
  s' = s.
Proof. intros Hr Hw E. specialize (Hr X op s Hw). now rewrite E in Hr. Qed.

Lemma validateGroup_run S (h : Handler S) s group existingGroup :
  let v := run h (validateGroup group existingGroup) s in
  writes (trace v) = [] /\
  (reads_preserve_state h -> final v = s) /\
  (forall e, outcome v = Thrown e -> validation_error e).
Proof.
  cbv zeta. split; [ | split].
  - validate_cases h group existingGroup ltac:(reflexivity).
  - intros Hr.
    validate_cases h group existingGroup
      ltac:(repeat match goal with
                   | E : h _ ?op ?s0 = (_, ?s1) |- _ =>
                       assert (s1 = s0)
                         by exact (@read_keeps_state _ h _ op s0 _ s1 Hr
                                     eq_refl E);
                       clear E; subst s1
                   end; reflexivity).
  - intros e. unfold validation_error.
    validate_cases h group existingGroup
      ltac:(first [discriminate | intros [= <-]; auto]).
Qed.

(** C3: whenever [createGroup] or [updateGroup] fails with an error the
    service raised itself, that error is one of the validation errors, the
    call issued no persisting store operation before it, and (for a store
    whose read operations leave its state alone) the store state is the
    one the call started from. *)
Theorem validation_failure_precedes_every_write :
  forall S (h : Handler S) (s : S) (group : ICreateGroupModel) userName
         (call : prog IGroup) (e : ServiceError),
    call = createGroup group userName \/ call = updateGroup group userName ->
    outcome (run h call s) = Thrown e ->
    validation_error e /\
    writes (trace (run h call s)) = [] /\
    (reads_preserve_state h -> final (run h call s) = s).
Proof.
  intros S h s group userName call e [-> | ->].
  - unfold createGroup. rewrite run_bind. unfold then_run.
    destruct (validateGroup_run h s group None) as (Hw & Hs & He).
    destruct (outcome (run h (validateGroup group None) s)) as [[] | e0 | e0]
      eqn:Eo; simpl.
    + repeat (answer h; try discriminate).
    + intros [= <-]. split; [auto | split; [exact Hw | exact Hs]].
    + discriminate.
  - unfold updateGroup. simpl. answer h; [discriminate | ].
    fold (validateGroup group (Some x)).
    rewrite run_bind. unfold then_run.
    destruct (validateGroup_run h s0 group (Some x)) as (Hw & Hs & He).
    destruct (outcome (run h (validateGroup group (Some x)) s0))
      as [[] | e0 | e0] eqn:Eo; simpl.
    + repeat (answer h; try discriminate).
    + intros [= <-]. split; [auto | split].
      * exact Hw.
      * intros Hr. rewrite (Hs Hr).
        specialize (Hr _ (Get (cg_id group)) s eq_refl).
        now rewrite E in Hr.
    + discriminate.
Qed.

Lemma validation_failure_precedes_every_write_witness :
  validation_error (BadDataError conflict_msg) /\
  writes (trace (run Demo.h (updateGroup Demo.rooted "admin") Demo.store))
    = [] /\
  (reads_preserve_state Demo.h ->
   final (run Demo.h (updateGroup Demo.rooted "admin") Demo.store)
     = Demo.store).
Proof.
  apply (@validation_failure_precedes_every_write _ Demo.h Demo.store
           Demo.rooted "admin" (updateGroup Demo.rooted "admin")).
  - right. reflexivity.
  - reflexivity.
Defined.

(** ** Reads *)

(** C8: whatever the [projectId] argument (present or omitted), when the
    store answers the role lookup with no association, [getProjectGroups]
    returns the empty list: it neither raises nor asks the store anything
    else. *)
Theorem getProjectGroups_no_roles :
  forall S (h : Handler S) (s s' : S) (projectId : option string),
    h _ (GetProjectGroupRoles projectId) s = (inr [], s') ->
    run h (getProjectGroups projectId) s =
    mkRun (Done []) s' [Ev (GetProjectGroupRoles projectId) (inr [])].
Proof.
  intros S h s s' projectId Hroles.
  unfold getProjectGroups. simpl. rewrite Hroles. reflexivity.
Qed.

Lemma getProjectGroups_no_roles_witness :
  run Demo.h (getProjectGroups (Some "infra")) Demo.store =
  mkRun (Done []) Demo.store
    [Ev (GetProjectGroupRoles (Some "infra")) (inr [])].
Proof. apply getProjectGroups_no_roles. reflexivity. Defined.

(** ** External group synchronisation *)

(** C9: when the [externalGroups] argument is not an array,
    [syncExternalGroups] is a no-op: it returns without issuing any store
    call, read or write, and the store state is the initial one. *)
Theorem syncExternalGroups_not_an_array :
  forall S (h : Handler S) (s : S) (userId : Z) (externalGroups : JsValue)
         (createdBy : option string),
    isArray externalGroups = false ->
    run h (syncExternalGroups userId externalGroups createdBy) s =
    mkRun (Done tt) s [].
Proof.
  intros S h s userId externalGroups createdBy Harr.
  unfold syncExternalGroups. rewrite Harr. reflexivity.
Qed.

Lemma syncExternalGroups_not_an_array_witness :
  run Demo.h (syncExternalGroups 1 (JsString "devs") (Some "sso")) Demo.store
  = mkRun (Done tt) Demo.store [].
Proof. apply syncExternalGroups_not_an_array. reflexivity. Defined.

(** ** Name collisions and role conflicts *)

Lemma read_answer S (h : Handler S) X (op : storeOp X) s a :
  reads_preserve_state h -> is_write op = false -> fst (h X op s) = a ->
  h X op s = (a, s).
Proof.
  intros Hr Hw Ha. specialize (Hr X op s Hw).
  destruct (h X op s) as [a' s']; simpl in *. now subst.
Qed.

Lemma createGroup_done_named S (h : Handler S) s group userName created :
  outcome (run h (createGroup group userName) s) = Done created ->
  truthy_string (cg_name group) = true.
Proof.
  unfold createGroup, validateGroup.
  destruct (truthy_string (cg_name group)); [reflexivity | discriminate].
Qed.

(** C5: when a first [createGroup] succeeded and the store then reports its
    name as held, a second [createGroup] with that name fails with the
    name-collision error before any write; and an [updateGroup] whose
    payload keeps the name the store has for the group never asks the store
    whether the name exists and never raises the name-collision error. *)
Theorem name_collision_on_create_not_on_unchanged_name :
  forall S (h : Handler S),
    (forall s first userName1 second userName2 created,
        let r1 := run h (createGroup first userName1) s in
        outcome r1 = Done created ->
        cg_name second = cg_name first ->
        fst (h _ (ExistsWithName (cg_name first)) (final r1)) = inr true ->
        let r2 := run h (createGroup second userName2) (final r1) in
        outcome r2 = Thrown (NameExistsError "Group name already exists") /\
        writes (trace r2) = []) /\
    (forall s s' group userName preData,
        h _ (Get (cg_id group)) s = (inr preData, s') ->
        g_name preData = cg_name group ->
        let r := run h (updateGroup group userName) s in
        filter ev_is_existsWithName (trace r) = [] /\
        forall msg, outcome r <> Thrown (NameExistsError msg)).
Proof.
  intros S h. split.
  - intros s first userName1 second userName2 created r1 Hdone Hname Hheld.
    apply createGroup_done_named in Hdone.
    generalize dependent (final r1). clear r1. intros s1 Hheld. cbv zeta.
    unfold createGroup, validateGroup.
    rewrite Hname, Hdone. simpl.
    destruct (h bool (ExistsWithName (cg_name first)) s1)
      as [a s2]; simpl in Hheld; subst a. simpl. split; reflexivity.
  - intros s s' group userName preData Hget Hname. cbv zeta.
    unfold updateGroup, validateGroup. simpl. rewrite Hget.
    rewrite Hname, String.eqb_refl. simpl.
    destruct (negb (truthy_string (cg_name group))); simpl;
      [split; [reflexivity | discriminate] | ].
    destruct (cg_id group) as [gid |]; simpl.
    + destruct (gid =? 0); simpl;
        [ | destruct (truthy_num (cg_rootRole group)); simpl;
            [answer h; [split; [reflexivity | discriminate] | ];
             destruct x; simpl; [split; [reflexivity | discriminate] | ] | ] ];
        repeat (answer h; try (split; [reflexivity | discriminate])).
    + repeat (answer h; try (split; [reflexivity | discriminate])).
Qed.

Lemma name_collision_on_create_not_on_unchanged_name_witness :
  (let r1 := run Demo.h (createGroup Demo.qa "admin") Demo.store in
   let r2 := run Demo.h (createGroup Demo.qa "root") (final r1) in
   outcome r2 = Thrown (NameExistsError "Group name already exists") /\
   writes (trace r2) = []) /\
  (let r := run Demo.h (updateGroup Demo.bob_carol_dave "admin") Demo.store in
   filter ev_is_existsWithName (trace r) = [] /\
   forall msg, outcome r <> Thrown (NameExistsError msg)).
Proof.
  split.
  - apply (proj1 (@name_collision_on_create_not_on_unchanged_name _ Demo.h)
             Demo.store Demo.qa "admin" Demo.qa "root"
             (mkGroup 3 "qa" "testers" None));
      reflexivity.
  - apply (proj2 (@name_collision_on_create_not_on_unchanged_name _ Demo.h)
             Demo.store Demo.store Demo.bob_carol_dave "admin"
             (mkGroup 1 "devs" "developers" None));
      reflexivity.
Defined.

(** For C6, the claim as first stated: every [updateGroup] call that sets
    a root role on a group for which the store records a project role fails
    with the data-validation error.  It does not hold: renaming group 1
    (which has a project role) to the name held by group 2 while setting a
    root role fails with the name-collision error, raised first. *)
Lemma updateGroup_root_role_name_collision_first :
  ~ (forall S (h : Handler S) s group userName gid,
        cg_id group = Some gid ->
        cg_rootRole group <> None ->
        fst (h _ (HasProjectRole gid) s) = inr true ->
        exists msg,
          outcome (run h (updateGroup group userName) s)
          = Thrown (BadDataError msg)).
Proof.
  intros claim.
  destruct (claim _ Demo.h Demo.store Demo.rooted_and_renamed "admin" 1
              eq_refl ltac:(discriminate) eq_refl) as [msg Hmsg].
  vm_compute in Hmsg. discriminate.
Qed.

Example updateGroup_rooted_and_renamed :
  run Demo.h (updateGroup Demo.rooted_and_renamed "admin") Demo.store =
  mkRun (Thrown (NameExistsError "Group name already exists")) Demo.store
    [Ev (Get (Some 1)) (inr (mkGroup 1 "devs" "developers" None));
     Ev (ExistsWithName "ops") (inr true)].
Proof. reflexivity. Qed.

(** C6, amended: take an [updateGroup] call whose payload carries a group
    id and whose prior state the store returns.  The store is asked for the
    group's project role in the state the name check leaves: the state
    after the [get] when the name is unchanged, the state after the name
    lookup otherwise.
    - If the id and the root role are truthy (non-zero), the name check
      does not fire first (the name is unchanged, or the store reports it
      free) and the store records a project role for the group, the call
      fails with the data-validation error (the conflict error when the
      name is not empty), before any write.
    - If the name is not empty, differs from the stored name and the store
      reports it as held, the call fails with the name-collision error
      instead, before any write, whatever the roles.
    - If the store records no project role for the group, the conflict
      error is not raised, and validation succeeds when the name is
      non-empty and passes the name check. *)
Theorem updateGroup_root_role_conflict :
  forall S (h : Handler S) (s s1 : S) (group : ICreateGroupModel) userName
         (gid : Z) (preData : IGroup),
    cg_id group = Some gid ->
    h _ (Get (cg_id group)) s = (inr preData, s1) ->
    let r := run h (updateGroup group userName) s in
    let name_lookup := h _ (ExistsWithName (cg_name group)) s1 in
    let name_check_passes :=
      g_name preData = cg_name group \/ fst name_lookup = inr false in
    let asked :=
      if (g_name preData =? cg_name group)%string then s1
      else snd name_lookup in
    (gid <> 0 ->
     truthy_num (cg_rootRole group) = true ->
     name_check_passes ->
     fst (h _ (HasProjectRole gid) asked) = inr true ->
     (exists msg, outcome r = Thrown (BadDataError msg)) /\
     (cg_name group <> "" ->
      outcome r = Thrown (BadDataError conflict_msg)) /\
     writes (trace r) = [] /\
     (reads_preserve_state h -> final r = s)) /\
    (cg_name group <> "" ->
     g_name preData <> cg_name group ->
     fst name_lookup = inr true ->
     outcome r = Thrown (NameExistsError "Group name already exists") /\
     writes (trace r) = [] /\
     (reads_preserve_state h -> final r = s)) /\
    (fst (h _ (HasProjectRole gid) asked) = inr false ->
     outcome r <> Thrown (BadDataError conflict_msg) /\
     (cg_name group <> "" ->
      name_check_passes ->
      outcome (run h (validateGroup group (Some preData)) s1) = Done tt)).
Proof.
  intros S h s s1 group userName gid preData Hid Hget. cbv zeta.
  assert (Hkeep : forall X (op : storeOp X) sa a sb,
             h X op sa = (a, sb) -> is_write op = false ->
             reads_preserve_state h -> sb = sa).
  { intros X op sa a sb E Hw Hr. exact (read_keeps_state _ _ Hr Hw E). }
  split; [ | split].
  - intros Hgid Hroot Hname Hrole.
    unfold updateGroup, validateGroup, truthy_string. simpl. rewrite Hget.
    rewrite Hid. simpl.
    apply Z.eqb_neq in Hgid. rewrite Hgid, Hroot. simpl.
    destruct (cg_name group =? "")%string eqn:Eempty; simpl.
    { apply String.eqb_eq in Eempty.
      split; [eexists; reflexivity | split; [ | split; [reflexivity | ]]].
      - intros Hne. now elim Hne.
      - intros Hr. exact (Hkeep _ _ _ _ _ Hget eq_refl Hr). }
    destruct (g_name preData =? cg_name group)%string eqn:Esame; simpl.
    + destruct (h bool (HasProjectRole gid) s1) as [a s3] eqn:Erole.
      simpl in Hrole. subst a. simpl.
      split; [eexists; reflexivity | split; [reflexivity | ]].
      split; [reflexivity | ].
      intros Hr. rewrite (Hkeep _ _ _ _ _ Erole eq_refl Hr).
      exact (Hkeep _ _ _ _ _ Hget eq_refl Hr).
    + destruct Hname as [Hsame | Hfree];
        [apply String.eqb_neq in Esame; now elim Esame | ].
      destruct (h bool (ExistsWithName (cg_name group)) s1) as [b s2]
        eqn:Ename.
      simpl in Hfree, Hrole. subst b. simpl.
      destruct (h bool (HasProjectRole gid) s2) as [a s3] eqn:Erole.
      simpl in Hrole. subst a. simpl.
      split; [eexists; reflexivity | split; [reflexivity | ]].
      split; [reflexivity | ].
      intros Hr. rewrite (Hkeep _ _ _ _ _ Erole eq_refl Hr).
      rewrite (Hkeep _ _ _ _ _ Ename eq_refl Hr).
      exact (Hkeep _ _ _ _ _ Hget eq_refl Hr).
  - intros Hne Hdiff Hheld.
    unfold updateGroup, validateGroup, truthy_string. simpl. rewrite Hget.
    apply String.eqb_neq in Hne, Hdiff. rewrite Hne, Hdiff. simpl.
    destruct (h bool (ExistsWithName (cg_name group)) s1) as [b s2]
      eqn:Ename.
    simpl in Hheld. subst b. simpl.
    split; [reflexivity | split; [reflexivity | ]].
    intros Hr. rewrite (Hkeep _ _ _ _ _ Ename eq_refl Hr).
    exact (Hkeep _ _ _ _ _ Hget eq_refl Hr).
  - intros Hrole.
    assert (Hlast : forall s2, s2 = (if (g_name preData =? cg_name group)%string
                                     then s1
                                     else snd (h bool (ExistsWithName
                                                         (cg_name group)) s1)) ->
              outcome
                (run h
                   (if negb (gid =? 0) && truthy_num (cg_rootRole group)
                    then has <- await (HasProjectRole gid) ;;
                         if (has : bool)
                         then Throw (BadDataError conflict_msg) else Ret tt
                    else Ret tt) s2) <> Thrown (BadDataError conflict_msg) /\
              (forall e, outcome
                (run h
                   (if negb (gid =? 0) && truthy_num (cg_rootRole group)
                    then has <- await (HasProjectRole gid) ;;
                         if (has : bool)
                         then Throw (BadDataError conflict_msg) else Ret tt
                    else Ret tt) s2) <> Rejected e ->
               outcome
                (run h
                   (if negb (gid =? 0) && truthy_num (cg_rootRole group)
                    then has <- await (HasProjectRole gid) ;;
                         if (has : bool)
                         then Throw (BadDataError conflict_msg) else Ret tt
                    else Ret tt) s2) = Done tt)).
    { intros s2 ->.
      destruct (negb (gid =? 0) && truthy_num (cg_rootRole group)); simpl;
        [ | split; [discriminate | reflexivity]].
      destruct (h bool (HasProjectRole gid) _) as [a s3].
      simpl in Hrole. subst a. simpl. split; [discriminate | reflexivity]. }
    split.
    + unfold updateGroup. simpl. rewrite Hget.
      fold (validateGroup group (Some preData)).
      rewrite run_bind. unfold then_run.
      assert (Hv : outcome (run h (validateGroup group (Some preData)) s1)
                   <> Thrown (BadDataError conflict_msg)).
      { unfold validateGroup. rewrite Hid. simpl.
        destruct (negb (truthy_string (cg_name group))); simpl;
          [discriminate | ].
        destruct (g_name preData =? cg_name group)%string; simpl.
        - now apply Hlast.
        - destruct (h bool (ExistsWithName (cg_name group)) s1) as [[e | b] s2];
            simpl; [discriminate | ].
          destruct b; simpl; [discriminate | ]. now apply Hlast. }
      destruct (outcome (run h (validateGroup group (Some preData)) s1))
        as [[] | e0 | e0]; simpl; try congruence.
      repeat (answer h; try discriminate).
    + intros Hne Hname.
      unfold validateGroup, truthy_string. rewrite Hid. simpl.
      apply String.eqb_neq in Hne. rewrite Hne. simpl.
      destruct (g_name preData =? cg_name group)%string eqn:Esame; simpl.
      * destruct (Hlast s1 eq_refl) as [_ Hdone].
        destruct (negb (gid =? 0) && truthy_num (cg_rootRole group)); simpl;
          [ | reflexivity].
        destruct (h bool (HasProjectRole gid) s1) as [a s3].
        simpl in Hrole. subst a. reflexivity.
      * destruct Hname as [Hsame | Hfree];
          [apply String.eqb_neq in Esame; now elim Esame | ].
        destruct (h bool (ExistsWithName (cg_name group)) s1) as [b s2].
        simpl in Hfree, Hrole. subst b. simpl.
        destruct (negb (gid =? 0) && truthy_num (cg_rootRole group)); simpl;
          [ | reflexivity].
        destruct (h bool (HasProjectRole gid) s2) as [a s3].
        simpl in Hrole. subst a. reflexivity.
Qed.

Lemma updateGroup_root_role_conflict_witness :
  (outcome (run Demo.h (updateGroup Demo.rooted "admin") Demo.store)
     = Thrown (BadDataError conflict_msg) /\
   writes (trace (run Demo.h (updateGroup Demo.rooted "admin") Demo.store))
     = []) /\
  (outcome (run Demo.h (updateGroup Demo.rooted_and_renamed "admin")
              Demo.store)
     = Thrown (NameExistsError "Group name already exists") /\
   writes (trace (run Demo.h (updateGroup Demo.rooted_and_renamed "admin")
                    Demo.store))
     = []) /\
  (outcome (run Demo.h (updateGroup Demo.rooted_ops "admin") Demo.store)
     <> Thrown (BadDataError conflict_msg) /\
   outcome (run Demo.h
              (validateGroup Demo.rooted_ops
                 (Some (mkGroup 2 "ops" "operators" None)))
              Demo.store) = Done tt).
Proof.
  split; [ | split].
  - destruct (proj1 (@updateGroup_root_role_conflict _ Demo.h Demo.store
                       Demo.store Demo.rooted "admin" 1 Demo.devs
                       eq_refl eq_refl)
                ltac:(discriminate) eq_refl (or_introl eq_refl) eq_refl)
      as (_ & Hconflict & Hwrites & _).
    split; [apply Hconflict; discriminate | exact Hwrites].
  - destruct (proj1 (proj2
                (@updateGroup_root_role_conflict _ Demo.h Demo.store
                   Demo.store Demo.rooted_and_renamed "admin" 1 Demo.devs
                   eq_refl eq_refl))
                ltac:(discriminate) ltac:(discriminate) eq_refl)
      as (Hcollision & Hwrites & _).
    split; [exact Hcollision | exact Hwrites].
  - destruct (proj2 (proj2
                (@updateGroup_root_role_conflict _ Demo.h Demo.store
                   Demo.store Demo.rooted_ops "admin" 2
                   (mkGroup 2 "ops" "operators" None) eq_refl eq_refl))
                eq_refl)
      as [Hnone Hvalid].
    split; [exact Hnone | ].
    apply Hvalid; [discriminate | left; reflexivity].
Defined.

(** ** Membership diff of [updateGroup] *)

Lemma includes_In (l : list Z) (x : Z) : includes l x = true <-> In x l.
Proof.
  unfold includes. rewrite existsb_exists. split.
  - intros (y & Hy & Heq). apply Z.eqb_eq in Heq. now subst.
  - intros Hx. exists x. split; [exact Hx | apply Z.eqb_refl].
Qed.

Lemma newUsers_spec group existing u :
  In u (newUsers group existing) <->
  In u (cg_users group) /\ ~ In (u_id (cu_user u)) (map gu_userId existing).
Proof.
  unfold newUsers. rewrite filter_In, negb_true_iff.
  rewrite <- includes_In.
  destruct (includes (map gu_userId existing) (u_id (cu_user u)));
    intuition congruence.
Qed.

Lemma desired_In group (uid : Z) :
  existsb (fun groupUser => u_id (cu_user groupUser) =? uid) (cg_users group)
    = true <-> In uid (desiredIds group).
Proof.
  unfold desiredIds. rewrite existsb_exists, in_map_iff. split.
  - intros (u & Hu & Heq). apply Z.eqb_eq in Heq. now exists u.
  - intros (u & Heq & Hu). exists u. split; [exact Hu | now apply Z.eqb_eq].
Qed.

Lemma deletableUsers_spec group existing r :
  In r (deletableUsers group existing) <->
  In r existing /\ ~ In (gu_userId r) (desiredIds group).
Proof.
  unfold deletableUsers. rewrite filter_In, negb_true_iff.
  rewrite <- desired_In.
  destruct (existsb _ (cg_users group)); intuition congruence.
Qed.

Lemma updateGroupUsers_calls_app t1 t2 :
  updateGroupUsers_calls (t1 ++ t2) =
  updateGroupUsers_calls t1 ++ updateGroupUsers_calls t2.
Proof.
  induction t1 as [| e t1 IH]; simpl; [reflexivity | ].
  destruct (ev_updateGroupUsers e); simpl; now rewrite IH.
Qed.

Lemma validateGroup_no_updateGroupUsers S (h : Handler S) s group existing :
  updateGroupUsers_calls (trace (run h (validateGroup group existing) s)) = [].
Proof. validate_cases h group existing ltac:(reflexivity). Qed.

(** C1: take an [updateGroup] call with desired member list D (the payload's
    [users]) in which the store returns the prior state, validation passes,
    the update is persisted and the store then lists the existing
    membership rows E of the group.  After those calls the service issues
    exactly one [updateGroupUsers], for the persisted group and the actor,
    and then, if the store accepted it, the update event; the writes of the whole call are the
    group update, that one [updateGroupUsers] and possibly the event, so
    membership is written by that call alone.  Its added users are exactly
    the elements of D with no row in E, its removed rows are exactly the
    rows of E whose user is not in D, and it mentions no user who is both
    in D and in E. *)
Theorem updateGroup_membership_diff :
  forall S (h : Handler S) (s0 s1 s2 s3 s4 : S) (group : ICreateGroupModel)
         userName preData validated newGroup existing,
    h _ (Get (cg_id group)) s0 = (inr preData, s1) ->
    run h (validateGroup group (Some preData)) s1
      = mkRun (Done tt) s2 validated ->
    h _ (Update group) s2 = (inr newGroup, s3) ->
    h _ (GetAllUsersByGroups [cg_id group]) s3 = (inr existing, s4) ->
    exists added removed answer rest,
      trace (run h (updateGroup group userName) s0) =
        Ev (Get (cg_id group)) (inr preData)
        :: validated
        ++ [Ev (Update group) (inr newGroup);
            Ev (GetAllUsersByGroups [cg_id group]) (inr existing);
            Ev (UpdateGroupUsers (g_id newGroup) added removed userName)
               answer]
        ++ rest /\
      (rest = [] \/
       answer = inr tt /\
       exists stored,
         rest = [Ev (EventStore
                       (mkEvent GROUP_UPDATED userName (DataGroup newGroup)
                          (Some preData))) stored]) /\
      writes (trace (run h (updateGroup group userName) s0)) =
        [Ev (Update group) (inr newGroup);
         Ev (UpdateGroupUsers (g_id newGroup) added removed userName) answer]
        ++ rest /\
      updateGroupUsers_calls (trace (run h (updateGroup group userName) s0))
        = [(g_id newGroup, added, removed, userName)] /\
      (forall u, In u added <->
                 In u (cg_users group) /\
                 ~ In (u_id (cu_user u)) (map gu_userId existing)) /\
      (forall r, In r removed <->
                 In r existing /\ ~ In (gu_userId r) (desiredIds group)) /\
      (forall uid, In uid (desiredIds group) ->
                   In uid (map gu_userId existing) ->
                   ~ In uid (map (fun u => u_id (cu_user u)) added) /\
                   ~ In uid (map gu_userId removed)).
Proof.
  intros S h s0 s1 s2 s3 s4 group userName preData validated newGroup
    existing Hget Hvalid Hupdate Hrows.
  pose proof (validateGroup_no_updateGroupUsers h s1 group (Some preData))
    as Hnone.
  destruct (validateGroup_run h s1 group (Some preData)) as (Hquiet & _ & _).
  rewrite Hvalid in Hnone, Hquiet. simpl in Hnone, Hquiet.
  assert (Hrun :
    exists answer rest,
      trace (run h (updateGroup group userName) s0) =
        Ev (Get (cg_id group)) (inr preData)
        :: validated
        ++ [Ev (Update group) (inr newGroup);
            Ev (GetAllUsersByGroups [cg_id group]) (inr existing);
            Ev (UpdateGroupUsers (g_id newGroup) (newUsers group existing)
                  (deletableUsers group existing) userName) answer]
        ++ rest /\
      (rest = [] \/
       answer = inr tt /\
       exists stored,
         rest = [Ev (EventStore
                       (mkEvent GROUP_UPDATED userName (DataGroup newGroup)
                          (Some preData))) stored])).
  { unfold updateGroup. rewrite run_bind, run_await, Hget.
    unfold then_run at 1. cbn [outcome final trace].
    rewrite run_bind, Hvalid. unfold then_run at 1. cbn [outcome final trace].
    simpl. rewrite Hupdate. simpl. rewrite Hrows. simpl.
    answer h; [do 2 eexists; split; [reflexivity | now left] | ].
    destruct x.
    answer h; do 2 eexists;
      (split; [reflexivity | right; split; [reflexivity | eexists;
                                            reflexivity]]). }
  destruct Hrun as (answer & rest & Htrace & Hrest).
  exists (newUsers group existing), (deletableUsers group existing),
    answer, rest.
  split; [exact Htrace | split; [exact Hrest | ]].
  split; [ | split; [ | split; [ | split]]].
  - rewrite Htrace. change (Ev (Get (cg_id group)) (inr preData)
                            :: validated ++ ?l)
      with ([Ev (Get (cg_id group)) (inr preData)] ++ validated ++ l).
    rewrite !writes_app, Hquiet. simpl.
    destruct Hrest as [-> | (_ & stored & ->)]; reflexivity.
  - rewrite Htrace. change (Ev (Get (cg_id group)) (inr preData)
                            :: validated ++ ?l)
      with ([Ev (Get (cg_id group)) (inr preData)] ++ validated ++ l).
    rewrite !updateGroupUsers_calls_app, Hnone. simpl.
    destruct Hrest as [-> | (_ & stored & ->)]; reflexivity.
  - intros u. apply newUsers_spec.
  - intros r. apply deletableUsers_spec.
  - intros uid Hd He. split.
    + rewrite in_map_iff. intros (u & Hu & Hin).
      apply newUsers_spec in Hin. destruct Hin as [_ Hnot].
      apply Hnot. now rewrite Hu.
    + rewrite in_map_iff. intros (r & Hr & Hin).
      apply deletableUsers_spec in Hin. destruct Hin as [_ Hnot].
      apply Hnot. now rewrite Hr.
Qed.

Example updateGroup_ABC_to_BCD :
  updateGroupUsers_calls
    (trace (run Demo.h (updateGroup Demo.bob_carol_dave "admin") Demo.store))
  = [(1, [mkCreateUser Demo.dave], [mkGroupUser 1 1 10 (Some "admin")],
     "admin")].
Proof. reflexivity. Qed.

(** On the in-memory store the rows of bob and carol survive the update as
    they were, the row of alice is gone and a row for dave is new. *)
Example updateGroup_ABC_to_BCD_rows :
  Mem.groupUsers
    (final (run Demo.h (updateGroup Demo.bob_carol_dave "admin")
              Demo.store))
  = [mkGroupUser 1 2 11 (Some "admin"); mkGroupUser 1 3 12 None;
     mkGroupUser 2 1 13 (Some "sso"); mkGroupUser 1 4 100 (Some "admin")].
Proof. reflexivity. Qed.

Lemma updateGroup_membership_diff_witness :
  exists added removed answer rest,
    trace (run Demo.h (updateGroup Demo.bob_carol_dave "admin") Demo.store) =
      Ev (Get (cg_id Demo.bob_carol_dave)) (inr Demo.devs)
      :: []
      ++ [Ev (Update Demo.bob_carol_dave) (inr Demo.devs);
          Ev (GetAllUsersByGroups [cg_id Demo.bob_carol_dave])
             (inr Demo.devs_rows);
          Ev (UpdateGroupUsers (g_id Demo.devs) added removed "admin")
             answer]
      ++ rest /\
    (rest = [] \/
     answer = inr tt /\
     exists stored,
       rest = [Ev (EventStore
                     (mkEvent GROUP_UPDATED "admin" (DataGroup Demo.devs)
                        (Some Demo.devs))) stored]) /\
    writes (trace (run Demo.h (updateGroup Demo.bob_carol_dave "admin")
                     Demo.store)) =
      [Ev (Update Demo.bob_carol_dave) (inr Demo.devs);
       Ev (UpdateGroupUsers (g_id Demo.devs) added removed "admin") answer]
      ++ rest /\
    updateGroupUsers_calls
      (trace (run Demo.h (updateGroup Demo.bob_carol_dave "admin")
                Demo.store))
      = [(g_id Demo.devs, added, removed, "admin")] /\
    (forall u, In u added <->
               In u (cg_users Demo.bob_carol_dave) /\
               ~ In (u_id (cu_user u)) (map gu_userId Demo.devs_rows)) /\
    (forall r, In r removed <->
               In r Demo.devs_rows /\
               ~ In (gu_userId r) (desiredIds Demo.bob_carol_dave)) /\
    (forall uid, In uid (desiredIds Demo.bob_carol_dave) ->
                 In uid (map gu_userId Demo.devs_rows) ->
                 ~ In uid (map (fun u => u_id (cu_user u)) added) /\
                 ~ In uid (map gu_userId removed)).
Proof.
  apply (@updateGroup_membership_diff _ Demo.h
           Demo.store Demo.store Demo.store Demo.store Demo.store
           Demo.bob_carol_dave "admin" Demo.devs [] Demo.devs
           Demo.devs_rows);
    reflexivity.
Defined.

(** ** Group views *)

Lemma mapP_Ret {A B} (f : A -> prog B) (g : A -> B) (l : list A) :
  (forall a, In a l -> f a = Ret (g a)) -> mapP f l = Ret (map g l).
Proof.
  induction l as [| a l IH]; intros Hf; simpl; [reflexivity | ].
  rewrite (Hf a (or_introl eq_refl)). simpl.
  rewrite IH by (intros b Hb; apply Hf; now right). reflexivity.
Qed.

Lemma mapP_Forall2 {A B} (f : A -> prog B) (P : A -> B -> Prop)
    (l : list A) :
  (forall a, In a l -> exists b, f a = Ret b /\ P a b) ->
  exists bs, mapP f l = Ret bs /\ Forall2 P l bs.
Proof.
  induction l as [| a l IH]; intros Hf; simpl.
  - exists []. split; [reflexivity | constructor].
  - destruct (Hf a (or_introl eq_refl)) as (b & Hb & HP).
    destruct IH as (bs & Hbs & HF); [intros x Hx; apply Hf; now right | ].
    exists (b :: bs). rewrite Hb. simpl. rewrite Hbs. simpl.
    split; [reflexivity | now constructor].
Qed.

Lemma find_filter {A} (p q : A -> bool) (l : list A) :
  find p (filter q l) = find (fun x => q x && p x) l.
Proof.
  induction l as [| a l IH]; simpl; [reflexivity | ].
  destruct (q a); simpl; [destruct (p a); [reflexivity | exact IH] | exact IH].
Qed.

(** [mapGroupWithUsers] always returns: the [find] on the group's rows
    cannot miss, since the user was selected through those rows. *)
Lemma mapGroupWithUsers_returns group allGroupUsers allUsers :
  exists finalUsers,
    mapGroupWithUsers group allGroupUsers allUsers
      = Ret (mkGroupModel group finalUsers None) /\
    forall e,
      In e finalUsers <->
      In (gum_user e) allUsers /\
      exists row,
        find (fun r => (gu_groupId r =? g_id group)
                       && (gu_userId r =? u_id (gum_user e)))
             allGroupUsers = Some row /\
        gum_joinedAt e = gu_joinedAt row /\
        gum_createdBy e = gu_createdBy row.
Proof.
  unfold mapGroupWithUsers.
  set (groupUsers := filter (fun user => gu_groupId user =? g_id group)
                       allGroupUsers).
  set (selected := filter (fun user =>
                             includes (map gu_userId groupUsers) (u_id user))
                     allUsers).
  set (entry := fun user =>
         match find (fun gu => gu_userId gu =? u_id user) groupUsers with
         | Some roleUser =>
             mkGroupUserModel user (gu_joinedAt roleUser)
               (gu_createdBy roleUser)
         | None => mkGroupUserModel user 0 None
         end).
  assert (Hentry_user : forall user, gum_user (entry user) = user).
  { intros user. unfold entry. now destruct (find _ groupUsers). }
  exists (map entry selected). split.
  - rewrite (mapP_Ret _ entry); [reflexivity | ].
    intros user Hsel. unfold entry.
    destruct (find (fun gu => gu_userId gu =? u_id user) groupUsers)
      as [roleUser |] eqn:Efind; [reflexivity | exfalso].
    apply filter_In in Hsel. destruct Hsel as [_ Hinc].
    apply includes_In, in_map_iff in Hinc. destruct Hinc as (gu & Hid & Hgu).
    apply (find_none _ _ Efind) in Hgu. simpl in Hgu.
    rewrite Hid, Z.eqb_refl in Hgu. discriminate.
  - intros e. rewrite in_map_iff. split.
    + intros (user & He & Hsel). apply filter_In in Hsel.
      destruct Hsel as [Huser Hinc]. subst e. rewrite Hentry_user.
      unfold entry, groupUsers. rewrite find_filter.
      destruct (find _ allGroupUsers) as [row |] eqn:Efind; simpl.
      * split; [exact Huser | exists row; auto].
      * exfalso. apply includes_In, in_map_iff in Hinc.
        destruct Hinc as (gu & Hid & Hgu). apply filter_In in Hgu.
        destruct Hgu as [Hgu Hgrp].
        apply (find_none _ _ Efind) in Hgu. simpl in Hgu.
        rewrite Hgrp, Hid, Z.eqb_refl in Hgu. discriminate.
    + intros (Huser & row & Hfind & Hjoined & Hby).
      exists (gum_user e). split.
      * unfold entry, groupUsers. rewrite find_filter, Hfind.
        destruct e; simpl in *. now subst.
      * apply filter_In. split; [exact Huser | ].
        apply includes_In, in_map_iff. apply find_some in Hfind.
        destruct Hfind as [Hrow Hkey]. apply andb_true_iff in Hkey.
        destruct Hkey as [Hgrp Hid]. exists row. split.
        -- now apply Z.eqb_eq.
        -- apply filter_In. now split.
Qed.

Lemma mapGroupWithProjects_spec groupProjects m p :
  In p (map gp_project
          (filter (fun project => gp_groupId project =? g_id (gm_group m))
             groupProjects)) <->
  exists gp, In gp groupProjects /\ gp_groupId gp = g_id (gm_group m) /\
             gp_project gp = p.
Proof.
  rewrite in_map_iff. split.
  - intros (gp & Hp & Hin). apply filter_In in Hin. destruct Hin as [Hin Hg].
    exists gp. apply Z.eqb_eq in Hg. auto.
  - intros (gp & Hin & Hg & Hp). exists gp. split; [exact Hp | ].
    apply filter_In. split; [exact Hin | now apply Z.eqb_eq].
Qed.

Lemma exact_view_groups allGroupUsers users groupProjects groups views :
  Forall2 (exact_view allGroupUsers users groupProjects) groups views ->
  map gm_group views = groups.
Proof.
  induction 1 as [| g m gs ms Hgm _ IH]; simpl; [reflexivity | ].
  destruct Hgm as [Hg _]. now rewrite Hg, IH.
Qed.

(** C7: when the store answers the four lookups of [getAll] (the groups,
    the membership rows of those groups, the users of those rows, the
    group-project associations of those groups), [getAll] returns, after
    exactly those four reads, one view per group in the store's listing
    order, and each view is the group annotated with exactly its own
    members and projects (see [exact_view]): nothing of a row or an
    association that carries another group's id enters it. *)
Theorem getAll_exact_views :
  forall S (h : Handler S) (s0 s1 s2 s3 s4 : S) groups allGroupUsers users
         groupProjects,
    h _ GetAll s0 = (inr groups, s1) ->
    h _ (GetAllUsersByGroups (map (fun g => Some (g_id g)) groups)) s1
      = (inr allGroupUsers, s2) ->
    h _ (AccountGetAllWithId (map gu_userId allGroupUsers)) s2
      = (inr users, s3) ->
    h _ (GetGroupProjects (map g_id groups)) s3 = (inr groupProjects, s4) ->
    exists views,
      run h getAll s0 =
      mkRun (Done views) s4
        [Ev GetAll (inr groups);
         Ev (GetAllUsersByGroups (map (fun g => Some (g_id g)) groups))
            (inr allGroupUsers);
         Ev (AccountGetAllWithId (map gu_userId allGroupUsers)) (inr users);
         Ev (GetGroupProjects (map g_id groups)) (inr groupProjects)] /\
      map gm_group views = groups /\
      Forall2 (exact_view allGroupUsers users groupProjects) groups views.
Proof.
  intros S h s0 s1 s2 s3 s4 groups allGroupUsers users groupProjects
    Hgroups Hrows Husers Hprojects.
  destruct (mapP_Forall2
              (fun group =>
                 mappedGroup <- mapGroupWithUsers group allGroupUsers users ;;
                 Ret (mapGroupWithProjects groupProjects mappedGroup))
              (exact_view allGroupUsers users groupProjects) groups)
    as (views & Hviews & Hexact).
  { intros g _.
    destruct (mapGroupWithUsers_returns g allGroupUsers users)
      as (finalUsers & Hret & Hfinal).
    exists (mapGroupWithProjects groupProjects
              (mkGroupModel g finalUsers None)).
    rewrite Hret. split; [reflexivity | ].
    unfold exact_view, mapGroupWithProjects. simpl.
    split; [reflexivity | split; [exact Hfinal | split; [ | split]]].
    - intros e He. apply Hfinal in He.
      destruct He as (_ & row & Hfind & Hjoined & Hby).
      apply find_some in Hfind. destruct Hfind as [Hrow Hkey].
      apply andb_true_iff in Hkey. destruct Hkey as [Hgrp Hid].
      apply Z.eqb_eq in Hgrp, Hid. exists row. auto.
    - intros user row Huser Hrow Hgrp Hid.
      destruct (find (fun r => (gu_groupId r =? g_id g)
                               && (gu_userId r =? u_id user)) allGroupUsers)
        as [first |] eqn:Efind.
      + exists (mkGroupUserModel user (gu_joinedAt first)
                  (gu_createdBy first)).
        split; [ | reflexivity]. apply Hfinal. simpl.
        split; [exact Huser | exists first; auto].
      + apply (find_none _ _ Efind) in Hrow. simpl in Hrow.
        rewrite Hgrp, Hid, !Z.eqb_refl in Hrow. discriminate.
    - eexists. split; [reflexivity | ].
      intros p.
      apply (mapGroupWithProjects_spec groupProjects
               (mkGroupModel g finalUsers None) p). }
  exists views. split; [ | split; [ | exact Hexact]].
  - unfold getAll. simpl. rewrite Hgroups. simpl. rewrite Hrows. simpl.
    rewrite Husers. simpl. rewrite Hprojects. simpl.
    rewrite Hviews. reflexivity.
  - exact (exact_view_groups Hexact).
Qed.

Lemma getAll_exact_views_witness :
  exists views,
    run Demo.h getAll Demo.store =
    mkRun (Done views) Demo.store
      [Ev GetAll (inr (Mem.groups Demo.store));
       Ev (GetAllUsersByGroups
             (map (fun g => Some (g_id g)) (Mem.groups Demo.store)))
          (inr (Mem.groupUsers Demo.store));
       Ev (AccountGetAllWithId (map gu_userId (Mem.groupUsers Demo.store)))
          (inr [Demo.alice; Demo.bob; Demo.carol]);
       Ev (GetGroupProjects (map g_id (Mem.groups Demo.store)))
          (inr (Mem.groupProjects Demo.store))] /\
    map gm_group views = Mem.groups Demo.store /\
    Forall2
      (exact_view (Mem.groupUsers Demo.store)
         [Demo.alice; Demo.bob; Demo.carol] (Mem.groupProjects Demo.store))
      (Mem.groups Demo.store) views.
Proof.
  apply (@getAll_exact_views _ Demo.h Demo.store Demo.store Demo.store
           Demo.store Demo.store);
    reflexivity.
Defined.

Example getAll_demo :
  outcome (run Demo.h getAll Demo.store) =
  Done
    [mkGroupModel Demo.devs
       [mkGroupUserModel Demo.alice 10 (Some "admin");
        mkGroupUserModel Demo.bob 11 (Some "admin");
        mkGroupUserModel Demo.carol 12 None]
       (Some ["default"; "web"]);
     mkGroupModel (mkGroup 2 "ops" "operators" None)
       [mkGroupUserModel Demo.alice 13 (Some "sso")]
       (Some ["infra"])].
Proof. reflexivity. Qed.

(** ** Idempotence of external synchronisation on the in-memory store *)

Lemma filter_none {A} (p : A -> bool) (l : list A) :
  (forall x, In x l -> p x = false) -> filter p l = [].
Proof.
  induction l as [| a l IH]; intros Hp; simpl; [reflexivity | ].
  rewrite (Hp a (or_introl eq_refl)). apply IH. intros x Hx. apply Hp.
  now right.
Qed.

Lemma filter_all {A} (l : list A) : filter (fun _ => true) l = l.
Proof. induction l as [| a l IH]; simpl; [reflexivity | now rewrite IH]. Qed.

Lemma insert_rows_nil s : Mem.insert_rows [] s = s.
Proof.
  destruct s. unfold Mem.insert_rows, Mem.set_groupUsers. simpl.
  now rewrite app_nil_r, Z.add_0_r.
Qed.

Lemma delete_rows_nil s : Mem.delete_rows [] s = s.
Proof.
  destruct s. unfold Mem.delete_rows, Mem.set_groupUsers. simpl.
  now rewrite filter_all.
Qed.

Lemma same_key_refl r : Mem.same_key r r = true.
Proof. unfold Mem.same_key. now rewrite !Z.eqb_refl. Qed.

Section Reconciliation.

Variable implied : IGroup -> list string -> bool.
Variables (userId : Z) (names : list string).

Lemma sync_run createdBy s :
  let s1 := Mem.added implied userId names createdBy s in
  run (Mem.handler implied)
    (syncExternalGroups userId (JsArray names) createdBy) s =
  mkRun (Done tt) (Mem.reconciled implied userId names createdBy s)
    [Ev (GetNewGroupsForExternalUser userId names)
        (inr (Mem.newGroupsFor implied s userId names));
     Ev (AddUserToGroups userId
           (map g_id (Mem.newGroupsFor implied s userId names)) createdBy)
        (inr tt);
     Ev (GetOldGroupsForExternalUser userId names)
        (inr (Mem.oldGroupsFor implied s1 userId names));
     Ev (DeleteUsersFromGroup (Mem.oldGroupsFor implied s1 userId names))
        (inr tt)].
Proof. reflexivity. Qed.

Lemma no_old_groups_left createdBy s :
  Mem.oldGroupsFor implied
    (Mem.reconciled implied userId names createdBy s) userId names = [].
Proof.
  unfold Mem.reconciled.
  set (s1 := Mem.added implied userId names createdBy s).
  unfold Mem.oldGroupsFor at 1. apply filter_none.
  intros r Hr. simpl in Hr. apply filter_In in Hr. destruct Hr as [Hr Hkept].
  apply negb_true_iff in Hkept.
  match goal with |- ?keep = false => destruct keep eqn:Eold end;
    [exfalso | reflexivity].
  assert (Hold : In r (Mem.oldGroupsFor implied s1 userId names)).
  { unfold Mem.oldGroupsFor. apply filter_In. split; [exact Hr | exact Eold]. }
  assert (Hdel : existsb (Mem.same_key r)
                   (Mem.oldGroupsFor implied s1 userId names) = true).
  { apply existsb_exists. exists r. split; [exact Hold | apply same_key_refl]. }
  congruence.
Qed.

Lemma no_new_groups_left createdBy s :
  Mem.newGroupsFor implied
    (Mem.reconciled implied userId names createdBy s) userId names = [].
Proof.
  pose (s1 := Mem.added implied userId names createdBy s).
  unfold Mem.newGroupsFor. apply filter_none. intros g Hg.
  change (In g (Mem.groups s)) in Hg.
  destruct (implied g names) eqn:Eimplied; [simpl | reflexivity].
  apply negb_false_iff.
  (* a membership row of the user in [g] exists after the additions *)
  assert (Hrow : exists r, In r (Mem.groupUsers s1) /\
                           gu_groupId r = g_id g /\ gu_userId r = userId).
  { destruct (Mem.is_member s (g_id g) userId) eqn:Emem.
    - unfold Mem.is_member in Emem. apply existsb_exists in Emem.
      destruct Emem as (r & Hr & Hkey). apply andb_true_iff in Hkey.
      destruct Hkey as [Hgrp Hid]. apply Z.eqb_eq in Hgrp, Hid.
      exists r. split; [ | auto]. simpl. apply in_or_app. now left.
    - exists (mkGroupUser (g_id g) userId (Mem.now s) createdBy).
      split; [ | auto]. simpl. apply in_or_app. right.
      apply in_map_iff. exists (g_id g). split; [reflexivity | ].
      apply in_map. unfold Mem.newGroupsFor. apply filter_In.
      split; [exact Hg | ]. now rewrite Eimplied, Emem. }
  destruct Hrow as (r & Hr & Hgrp & Hid).
  (* and the removals do not touch it, its group being implied *)
  unfold Mem.is_member. apply existsb_exists. exists r. split.
  - simpl. apply filter_In. split; [exact Hr | ].
    apply negb_true_iff.
    match goal with |- ?gone = false => destruct gone eqn:Egone end;
      [exfalso | reflexivity].
    apply existsb_exists in Egone. destruct Egone as (d & Hd & Hkey).
    unfold Mem.oldGroupsFor in Hd. apply filter_In in Hd.
    destruct Hd as [_ Hd]. apply andb_true_iff in Hd.
    destruct Hd as [_ Hd]. apply negb_true_iff in Hd.
    unfold Mem.same_key in Hkey. apply andb_true_iff in Hkey.
    destruct Hkey as [Hsame _]. apply Z.eqb_eq in Hsame.
    assert (Himp : Mem.group_implied implied s1 (gu_groupId d) names = true).
    { unfold Mem.group_implied. apply existsb_exists. exists g.
      split; [exact Hg | ].
      rewrite <- Hsame, Hgrp, Z.eqb_refl. exact Eimplied. }
    subst s1. congruence.
  - now rewrite Hgrp, Hid, !Z.eqb_refl.
Qed.

Lemma second_sync_added createdBy createdBy' s :
  let s2 := Mem.reconciled implied userId names createdBy s in
  Mem.added implied userId names createdBy' s2 = s2.
Proof.
  cbv zeta. unfold Mem.added at 1. rewrite no_new_groups_left.
  apply insert_rows_nil.
Qed.

Lemma second_sync_reconciled createdBy createdBy' s :
  let s2 := Mem.reconciled implied userId names createdBy s in
  Mem.reconciled implied userId names createdBy' s2 = s2.
Proof.
  cbv zeta. unfold Mem.reconciled at 1.
  rewrite second_sync_added, no_old_groups_left. apply delete_rows_nil.
Qed.

(** C2: on the in-memory store, [syncExternalGroups] is idempotent.  For
    every notion of which groups a name list implies, every store state,
    user id, external group-name list and actors, the first call returns,
    and a second call with the same list right after it finds no new group
    and no old membership: it adds the user to no group (the empty id
    list), removes no membership row (the empty row list), and leaves the
    store exactly as the first call left it. *)
Theorem syncExternalGroups_idempotent :
  forall (createdBy createdBy' : option string) (s : Mem.Store),
    let first :=
      run (Mem.handler implied)
        (syncExternalGroups userId (JsArray names) createdBy) s in
    let second :=
      run (Mem.handler implied)
        (syncExternalGroups userId (JsArray names) createdBy') (final first) in
    outcome first = Done tt /\
    second =
    mkRun (Done tt) (final first)
      [Ev (GetNewGroupsForExternalUser userId names) (inr []);
       Ev (AddUserToGroups userId [] createdBy') (inr tt);
       Ev (GetOldGroupsForExternalUser userId names) (inr []);
       Ev (DeleteUsersFromGroup []) (inr tt)].
Proof.
  intros createdBy createdBy' s first second.
  subst first second. rewrite !sync_run. cbn [outcome final].
  split; [reflexivity | ].
  rewrite second_sync_reconciled, second_sync_added.
  now rewrite no_new_groups_left, no_old_groups_left.
Qed.

End Reconciliation.

Example syncExternalGroups_twice :
  let first :=
    run Demo.h (syncExternalGroups 2 (JsArray ["ops"]) (Some "sso"))
      Demo.store in
  trace first =
    [Ev (GetNewGroupsForExternalUser 2 ["ops"])
        (inr [mkGroup 2 "ops" "operators" None]);
     Ev (AddUserToGroups 2 [2] (Some "sso")) (inr tt);
     Ev (GetOldGroupsForExternalUser 2 ["ops"])
        (inr [mkGroupUser 1 2 11 (Some "admin")]);
     Ev (DeleteUsersFromGroup [mkGroupUser 1 2 11 (Some "admin")]) (inr tt)]
  /\
  trace (run Demo.h (syncExternalGroups 2 (JsArray ["ops"]) (Some "sso"))
           (final first)) =
    [Ev (GetNewGroupsForExternalUser 2 ["ops"]) (inr []);
     Ev (AddUserToGroups 2 [] (Some "sso")) (inr tt);
     Ev (GetOldGroupsForExternalUser 2 ["ops"]) (inr []);
     Ev (DeleteUsersFromGroup []) (inr tt)].
Proof. split; reflexivity. Qed.

(** * Further properties of the service *)

(** ** The membership diff as a whole *)

Lemma newUsers_ids group existing uid :
  In uid (map (fun u => u_id (cu_user u)) (newUsers group existing)) <->
  In uid (desiredIds group) /\ ~ In uid (map gu_userId existing).
Proof.
  unfold desiredIds. split.
  - intros Hin. apply in_map_iff in Hin. destruct Hin as (u & Hid & Hu).
    apply newUsers_spec in Hu. destruct Hu as [Hu Hn]. subst uid.
    split; [ | exact Hn]. apply in_map_iff. now exists u.
  - intros [Hd Hn]. apply in_map_iff in Hd. destruct Hd as (u & Hid & Hu).
    apply in_map_iff. exists u. split; [exact Hid | ].
    apply newUsers_spec. subst uid. now split.
Qed.

Lemma deletableUsers_ids group existing uid :
  In uid (map gu_userId (deletableUsers group existing)) <->
  In uid (map gu_userId existing) /\ ~ In uid (desiredIds group).
Proof.
  split.
  - intros Hin. apply in_map_iff in Hin. destruct Hin as (r & Hid & Hr).
    apply deletableUsers_spec in Hr. destruct Hr as [Hr Hn]. subst uid.
    split; [ | exact Hn]. now apply in_map.
  - intros [He Hn]. apply in_map_iff in He. destruct He as (r & Hid & Hr).
    apply in_map_iff. exists r. split; [exact Hid | ].
    apply deletableUsers_spec. subst uid. now split.
Qed.

(** X1: the diff of [updateGroup] never adds and removes the same user, and
    applying it reaches the desired membership: a user id is desired
    exactly when it is added or has an existing row that is not removed. *)
Theorem membership_diff_reaches_desired :
  forall (group : ICreateGroupModel) (existing : list IGroupUser) (uid : Z),
    let added := map (fun u => u_id (cu_user u)) (newUsers group existing) in
    let removed := map gu_userId (deletableUsers group existing) in
    ~ (In uid added /\ In uid removed) /\
    (In uid (desiredIds group) <->
     In uid added \/ (In uid (map gu_userId existing) /\ ~ In uid removed)).
Proof.
  intros group existing uid. cbv zeta.
  rewrite newUsers_ids, deletableUsers_ids.
  destruct (in_dec Z.eq_dec uid (desiredIds group)) as [Hd | Hd];
    destruct (in_dec Z.eq_dec uid (map gu_userId existing)) as [He | He];
    tauto.
Qed.

(** X2: the edge cases of the diff.  Nothing is added exactly when every
    desired user already has a row, and nothing is removed exactly when the
    user of every existing row is desired, so resubmitting the current
    membership yields two empty lists; an empty desired list removes every
    existing row; with no existing row the whole desired list is added. *)
Theorem membership_diff_edge_cases :
  forall (group : ICreateGroupModel) (existing : list IGroupUser),
    (newUsers group existing = [] <->
     forall uid, In uid (desiredIds group) ->
                 In uid (map gu_userId existing)) /\
    (deletableUsers group existing = [] <->
     forall uid, In uid (map gu_userId existing) ->
                 In uid (desiredIds group)) /\
    (cg_users group = [] ->
     newUsers group existing = [] /\
     deletableUsers group existing = existing) /\
    (existing = [] ->
     newUsers group existing = cg_users group /\
     deletableUsers group existing = []).
Proof.
  intros group existing. split; [ | split; [ | split]].
  - split.
    + intros Hnil uid Hd.
      destruct (in_dec Z.eq_dec uid (map gu_userId existing)) as [He | He];
        [exact He | exfalso].
      assert (Hin : In uid (map (fun u => u_id (cu_user u))
                              (newUsers group existing)))
        by (apply newUsers_ids; now split).
      now rewrite Hnil in Hin.
    + intros Hall. destruct (newUsers group existing) as [| u rest] eqn:E;
        [reflexivity | exfalso].
      assert (Hu : In u (newUsers group existing)) by (rewrite E; now left).
      apply newUsers_spec in Hu. destruct Hu as [Hu Hn]. apply Hn, Hall.
      exact (in_map (fun x => u_id (cu_user x)) _ _ Hu).
  - split.
    + intros Hnil uid He.
      destruct (in_dec Z.eq_dec uid (desiredIds group)) as [Hd | Hd];
        [exact Hd | exfalso].
      assert (Hin : In uid (map gu_userId (deletableUsers group existing)))
        by (apply deletableUsers_ids; now split).
      now rewrite Hnil in Hin.
    + intros Hall.
      destruct (deletableUsers group existing) as [| r rest] eqn:E;
        [reflexivity | exfalso].
      assert (Hr : In r (deletableUsers group existing))
        by (rewrite E; now left).
      apply deletableUsers_spec in Hr. destruct Hr as [Hr Hn].
      apply Hn, Hall. now apply in_map.
  - intros Hempty. unfold newUsers, deletableUsers. rewrite Hempty. simpl.
    split; [reflexivity | apply filter_all].
  - intros Hempty. subst existing. unfold newUsers, deletableUsers. simpl.
    split; [apply filter_all | reflexivity].
Qed.

Lemma membership_diff_edge_cases_witness :
  newUsers (mkCreateGroup (Some 1) "devs" "developers" None [])
    Demo.devs_rows = [] /\
  deletableUsers (mkCreateGroup (Some 1) "devs" "developers" None [])
    Demo.devs_rows = Demo.devs_rows.
Proof.
  apply (proj1 (proj2 (proj2
           (membership_diff_edge_cases
              (mkCreateGroup (Some 1) "devs" "developers" None [])
              Demo.devs_rows)))).
  reflexivity.
Defined.

(** ** Group views, continued *)

Lemma includes_has_row rows gid uid :
  includes (map gu_userId (filter (fun r => gu_groupId r =? gid) rows)) uid
  = has_row rows gid uid.
Proof.
  unfold includes, has_row.
  induction rows as [| r rows IH]; simpl; [reflexivity | ].
  destruct (gu_groupId r =? gid); simpl; [ | exact IH].
  now rewrite IH, (Z.eqb_sym uid).
Qed.

(** X3: [mapGroupWithUsers] never fails on the property read of its inner
    [find]: for every group, row list and user list it returns a view of
    that group without a [projects] field, whose members are the given
    users that have a membership row in the group, in the order and
    multiplicity of the user list (several rows for one user give one
    entry per occurrence of the user, not per row). *)
Theorem mapGroupWithUsers_follows_user_list :
  forall (group : IGroup) (allGroupUsers : list IGroupUser)
         (allUsers : list IUser),
    exists view,
      mapGroupWithUsers group allGroupUsers allUsers = Ret view /\
      gm_group view = group /\
      gm_projects view = None /\
      map gum_user (gm_users view) =
      filter (fun user => has_row allGroupUsers (g_id group) (u_id user))
        allUsers.
Proof.
  intros group allGroupUsers allUsers.
  destruct (mapGroupWithUsers_returns group allGroupUsers allUsers)
    as (finalUsers & Hret & _).
  exists (mkGroupModel group finalUsers None).
  split; [exact Hret | split; [reflexivity | split; [reflexivity | ]]].
  simpl. revert finalUsers Hret. unfold mapGroupWithUsers.
  set (groupUsers := filter (fun user => gu_groupId user =? g_id group)
                       allGroupUsers).
  rewrite (filter_ext _ (fun user =>
             has_row allGroupUsers (g_id group) (u_id user)))
    by (intros user; apply includes_has_row).
  generalize (filter (fun user =>
                        has_row allGroupUsers (g_id group) (u_id user))
                allUsers).
  intros selected. induction selected as [| user selected IH];
    intros finalUsers Hret; simpl in Hret.
  - injection Hret as <-. reflexivity.
  - destruct (find (fun gu => gu_userId gu =? u_id user) groupUsers)
      as [roleUser |]; simpl in Hret; [ | discriminate].
    destruct (mapP _ selected) as [entries | e | X op k] eqn:Erest;
      simpl in Hret; try discriminate.
    injection Hret as <-. simpl. f_equal. apply IH. reflexivity.
Qed.

(** ** Queries *)

Lemma reads_only_bind {A B} (m : prog A) (f : A -> prog B) :
  reads_only m -> (forall a, reads_only (f a)) -> reads_only (bind m f).
Proof.
  induction m as [a | e | X op k IH]; simpl; intros Hm Hf; auto.
  destruct Hm as [Hop Hk]. split; [exact Hop | ]. intros x. now apply IH.
Qed.

Lemma throws_only_bind {A B} P (m : prog A) (f : A -> prog B) :
  throws_only P m -> (forall a, throws_only P (f a)) ->
  throws_only P (bind m f).
Proof.
  induction m as [a | e | X op k IH]; simpl; intros Hm Hf; auto.
Qed.

Lemma reads_only_mapP {A B} (f : A -> prog B) (l : list A) :
  (forall a, reads_only (f a)) -> reads_only (mapP f l).
Proof.
  intros Hf. induction l as [| a l IH]; simpl; [exact I | ].
  apply reads_only_bind; [apply Hf | ]. intros b.
  apply reads_only_bind; [exact IH | ]. intros bs. exact I.
Qed.

Lemma throws_only_mapP {A B} P (f : A -> prog B) (l : list A) :
  (forall a, throws_only P (f a)) -> throws_only P (mapP f l).
Proof.
  intros Hf. induction l as [| a l IH]; simpl; [exact I | ].
  apply throws_only_bind; [apply Hf | ]. intros b.
  apply throws_only_bind; [exact IH | ]. intros bs. exact I.
Qed.

Lemma run_reads_only {S A} (h : Handler S) (p : prog A) s :
  reads_only p ->
  writes (trace (run h p s)) = [] /\
  (reads_preserve_state h -> final (run h p s) = s).
Proof.
  revert s. induction p as [a | e | X op k IH]; intros s Hp; simpl.
  - auto.
  - auto.
  - destruct Hp as [Hop Hk].
    destruct (h X op s) as [[err | x] s'] eqn:E; simpl.
    + unfold writes. simpl. rewrite Hop. split; [reflexivity | ].
      intros Hr. exact (read_keeps_state _ _ Hr Hop E).
    + destruct (IH x s' (Hk x)) as [Hw Hs].
      unfold writes in *. simpl. rewrite Hop. split; [exact Hw | ].
      intros Hr. rewrite (Hs Hr). exact (read_keeps_state _ _ Hr Hop E).
Qed.

Lemma run_throws_only {S A} P (h : Handler S) (p : prog A) s e :
  throws_only P p -> outcome (run h p s) = Thrown e -> P e.
Proof.
  revert s. induction p as [a | e0 | X op k IH]; intros s Hp; simpl.
  - discriminate.
  - now intros [= <-].
  - destruct (h X op s) as [[err | x] s'] eqn:E; simpl.
    + discriminate.
    + apply IH, Hp.
Qed.

Lemma mapGroupWithUsers_settled group allGroupUsers allUsers :
  reads_only (mapGroupWithUsers group allGroupUsers allUsers) /\
  throws_only (fun _ => False)
    (mapGroupWithUsers group allGroupUsers allUsers).
Proof.
  destruct (mapGroupWithUsers_returns group allGroupUsers allUsers)
    as (finalUsers & -> & _).
  simpl. auto.
Qed.

Lemma getProjectGroups_callback_settled groupRoles groupUsers users group :
  let callback :=
    model <- mapGroupWithUsers group groupUsers users ;;
    match find (fun g => gr_groupId g =? g_id group) groupRoles with
    | Some role =>
        Ret (mkGroupModelWithProjectRole model (gr_roleId role)
               (gr_createdAt role))
    | None =>
        Throw (TypeError
          "Cannot read properties of undefined (reading 'roleId')")
    end in
  reads_only callback /\
  throws_only
    (fun e => e = TypeError
       "Cannot read properties of undefined (reading 'roleId')" /\
       ~ In (g_id group) (map gr_groupId groupRoles))
    callback.
Proof.
  cbv zeta.
  destruct (mapGroupWithUsers_returns group groupUsers users)
    as (finalUsers & -> & _).
  simpl.
  destruct (find (fun g => gr_groupId g =? g_id group) groupRoles)
    as [role |] eqn:Efind; simpl; [auto | ].
  split; [exact I | split; [reflexivity | ]].
  intros Hin. apply in_map_iff in Hin. destruct Hin as (role & Hid & Hrole).
  apply (find_none _ _ Efind) in Hrole. simpl in Hrole.
  rewrite Hid, Z.eqb_refl in Hrole. discriminate.
Qed.

Lemma getAll_settled :
  reads_only getAll /\ throws_only (fun _ => False) getAll.
Proof.
  unfold getAll. simpl. split.
  - repeat (split; [reflexivity | intros ?]).
    apply reads_only_mapP. intros group.
    apply reads_only_bind; [apply mapGroupWithUsers_settled | ].
    intros m. exact I.
  - intros groups rows users projects.
    apply throws_only_mapP. intros group.
    apply throws_only_bind; [apply mapGroupWithUsers_settled | ].
    intros m. exact I.
Qed.

Lemma getProjectGroups_settled projectId :
  reads_only (getProjectGroups projectId).
Proof.
  unfold getProjectGroups. simpl. split; [reflexivity | ]. intros roles.
  destruct (0 <? List.length roles)%nat; simpl; [ | exact I].
  repeat (split; [reflexivity | intros ?]).
  apply reads_only_mapP. intros group.
  apply (getProjectGroups_callback_settled roles x0 x1 group).
Qed.

(** X4: the query operations only read.  For every store and every
    argument, [getAll], [getGroup], [getProjectGroups],
    [getRolesForProject] and [getGroupsForUser] issue no persisting store
    operation, whether they return, throw or are rejected by the store;
    against a store whose reads leave its state alone the store state
    after the call is the state before it. *)
Theorem queries_never_write :
  forall S (h : Handler S) (s : S) (id userId : Z)
         (projectId : option string) (project : string),
    let quiet {A} (p : prog A) :=
      writes (trace (run h p s)) = [] /\
      (reads_preserve_state h -> final (run h p s) = s) in
    quiet getAll /\
    quiet (getGroup id) /\
    quiet (getProjectGroups projectId) /\
    quiet (getRolesForProject project) /\
    quiet (getGroupsForUser userId).
Proof.
  intros S h s id userId projectId project. cbv zeta.
  repeat split; try (apply run_reads_only); try (intros Hr;
    apply run_reads_only; [ | exact Hr]);
  try apply getAll_settled; try apply getProjectGroups_settled;
  try (simpl; repeat (split; [reflexivity | intros ?]);
       apply mapGroupWithUsers_settled);
  try (simpl; split; [reflexivity | intros ?; exact I]).
Qed.

(** X5: [getAll] and [getGroup] never raise an error of their own, for any
    store and any answers: whatever fails in them is a rejection by the
    store.  [getProjectGroups] can raise only the [TypeError] of reading
    [roleId] of a missing role association. *)
Theorem views_raise_no_error_of_their_own :
  forall S (h : Handler S) (s : S) (id : Z) (projectId : option string)
         (e : ServiceError),
    outcome (run h getAll s) <> Thrown e /\
    outcome (run h (getGroup id) s) <> Thrown e /\
    (outcome (run h (getProjectGroups projectId) s) = Thrown e ->
     e = TypeError "Cannot read properties of undefined (reading 'roleId')").
Proof.
  intros S h s id projectId e. split; [ | split].
  - intros Hthrown.
    exact (run_throws_only (fun _ => False) h getAll s
             (proj2 getAll_settled) Hthrown).
  - intros Hthrown.
    refine (run_throws_only (fun _ => False) h (getGroup id) s _ Hthrown).
    simpl. intros group rows users. apply mapGroupWithUsers_settled.
  - apply (run_throws_only
             (fun e => e = TypeError
                "Cannot read properties of undefined (reading 'roleId')")).
    unfold getProjectGroups. simpl. intros roles.
    destruct (0 <? List.length roles)%nat; simpl; [ | exact I].
    intros groups rows users. apply throws_only_mapP. intros group.
    destruct (mapGroupWithUsers_returns group rows users)
      as (finalUsers & -> & _).
    simpl. now destruct (find _ roles).
Qed.

(** X6: when the store answers the three lookups of [getGroup] (the group,
    the membership rows asked for its id, the users of those rows),
    [getGroup] returns after exactly those reads a view of the group the
    store returned, without a [projects] field, whose members are the
    resolved users that have a row carrying that group's id, each with the
    [joinedAt] and [createdBy] of such a row. *)
Theorem getGroup_view :
  forall S (h : Handler S) (s0 s1 s2 s3 : S) (id : Z) group groupUsers users,
    h _ (Get (Some id)) s0 = (inr group, s1) ->
    h _ (GetAllUsersByGroups [Some id]) s1 = (inr groupUsers, s2) ->
    h _ (AccountGetAllWithId (map gu_userId groupUsers)) s2
      = (inr users, s3) ->
    exists view,
      run h (getGroup id) s0 =
      mkRun (Done view) s3
        [Ev (Get (Some id)) (inr group);
         Ev (GetAllUsersByGroups [Some id]) (inr groupUsers);
         Ev (AccountGetAllWithId (map gu_userId groupUsers)) (inr users)] /\
      gm_group view = group /\
      gm_projects view = None /\
      (forall user, In user (map gum_user (gm_users view)) <->
                    In user users /\
                    has_row groupUsers (g_id group) (u_id user) = true) /\
      (forall e, In e (gm_users view) ->
                 exists row,
                   In row groupUsers /\ gu_groupId row = g_id group /\
                   gu_userId row = u_id (gum_user e) /\
                   gum_joinedAt e = gu_joinedAt row /\
                   gum_createdBy e = gu_createdBy row).
Proof.
  intros S h s0 s1 s2 s3 id group groupUsers users Hget Hrows Husers.
  destruct (mapGroupWithUsers_returns group groupUsers users)
    as (finalUsers & Hret & Hfinal).
  exists (mkGroupModel group finalUsers None). simpl.
  split; [ | split; [reflexivity | split; [reflexivity | split]]].
  - unfold getGroup. simpl. rewrite Hget. simpl. rewrite Hrows. simpl.
    rewrite Husers. simpl. rewrite Hret. reflexivity.
  - intros user. rewrite in_map_iff. split.
    + intros (e & He & Hin). apply Hfinal in Hin.
      destruct Hin as (Huser & row & Hfind & _). subst user.
      split; [exact Huser | ]. apply find_some in Hfind.
      unfold has_row. apply existsb_exists. now exists row.
    + intros [Huser Hrow]. unfold has_row in Hrow.
      apply existsb_exists in Hrow. destruct Hrow as (row & Hrow & Hkey).
      destruct (find (fun r => (gu_groupId r =? g_id group)
                               && (gu_userId r =? u_id user)) groupUsers)
        as [first |] eqn:Efind.
      * exists (mkGroupUserModel user (gu_joinedAt first)
                  (gu_createdBy first)).
        split; [reflexivity | ]. apply Hfinal. simpl.
        split; [exact Huser | exists first; auto].
      * apply (find_none _ _ Efind) in Hrow. simpl in Hrow. congruence.
  - intros e He. apply Hfinal in He.
    destruct He as (_ & row & Hfind & Hjoined & Hby).
    apply find_some in Hfind. destruct Hfind as [Hrow Hkey].
    apply andb_true_iff in Hkey. destruct Hkey as [Hgrp Hid].
    apply Z.eqb_eq in Hgrp, Hid. exists row. auto.
Qed.

Lemma getGroup_view_witness :
  exists view,
    run Demo.h (getGroup 1) Demo.store =
    mkRun (Done view) Demo.store
      [Ev (Get (Some 1)) (inr Demo.devs);
       Ev (GetAllUsersByGroups [Some 1]) (inr Demo.devs_rows);
       Ev (AccountGetAllWithId (map gu_userId Demo.devs_rows))
          (inr [Demo.alice; Demo.bob; Demo.carol])] /\
    gm_group view = Demo.devs /\
    gm_projects view = None /\
    (forall user, In user (map gum_user (gm_users view)) <->
                  In user [Demo.alice; Demo.bob; Demo.carol] /\
                  has_row Demo.devs_rows (g_id Demo.devs) (u_id user)
                  = true) /\
    (forall e, In e (gm_users view) ->
               exists row,
                 In row Demo.devs_rows /\ gu_groupId row = g_id Demo.devs /\
                 gu_userId row = u_id (gum_user e) /\
                 gum_joinedAt e = gu_joinedAt row /\
                 gum_createdBy e = gu_createdBy row).
Proof.
  apply (@getGroup_view _ Demo.h Demo.store Demo.store Demo.store Demo.store);
    reflexivity.
Defined.




(** ** What a mutation writes *)

Lemma stored_events_app t1 t2 :
  stored_events (t1 ++ t2) = stored_events t1 ++ stored_events t2.
Proof.
  induction t1 as [| e t1 IH]; simpl; [reflexivity | ].
  destruct (ev_stored e); simpl; now rewrite IH.
Qed.

Lemma validateGroup_stores_no_event S (h : Handler S) s group existing :
  stored_events (trace (run h (validateGroup group existing) s)) = [].
Proof. validate_cases h group existing ltac:(reflexivity). Qed.

(** X8: [createGroup] and [updateGroup] record an event exactly when they
    return.  A call that returns has stored exactly one event: of type
    [GROUP_CREATED] with the actor and the input payload as data, resp. of
    type [GROUP_UPDATED] with the actor, the group the store returned from
    the update as data and the group loaded before the update as
    [preData].  A call that throws or is rejected has stored none. *)
Theorem event_recorded_exactly_on_return :
  forall S (h : Handler S) (s : S) (group : ICreateGroupModel) userName,
    let c := run h (createGroup group userName) s in
    let u := run h (updateGroup group userName) s in
    stored_events (trace c) =
      match outcome c with
      | Done _ => [mkEvent GROUP_CREATED userName (DataInput group) None]
      | _ => []
      end /\
    match outcome u with
    | Done newGroup =>
        exists preData,
          fst (h _ (Get (cg_id group)) s) = inr preData /\
          stored_events (trace u) =
          [mkEvent GROUP_UPDATED userName (DataGroup newGroup)
             (Some preData)]
    | _ => stored_events (trace u) = []
    end.
Proof.
  intros S h s group userName. cbv zeta. split.
  - unfold createGroup. rewrite run_bind. unfold then_run.
    pose proof (validateGroup_stores_no_event h s group None) as Hnone.
    destruct (outcome (run h (validateGroup group None) s))
      as [[] | e | e]; simpl; try exact Hnone.
    rewrite stored_events_app, Hnone. simpl.
    repeat (answer h; try reflexivity).
  - unfold updateGroup. simpl. answer h; [reflexivity | ].
    fold (validateGroup group (Some x)). rewrite run_bind. unfold then_run.
    pose proof (validateGroup_stores_no_event h s0 group (Some x)) as Hnone.
    destruct (outcome (run h (validateGroup group (Some x)) s0))
      as [[] | e | e]; simpl; try exact Hnone.
    rewrite stored_events_app, Hnone. simpl.
    repeat (answer h; try reflexivity).
    exists x. split; reflexivity.
Qed.

(** X9: a [createGroup] call that returns a group has written, in this
    order and nothing else: the creation of the payload, which the store
    answered with the returned group; the addition of the payload's whole
    user list to the returned group's id, attributed to the actor; and the
    creation event. *)
Theorem createGroup_returned_means_written :
  forall S (h : Handler S) (s : S) (group : ICreateGroupModel) userName
         (newGroup : IGroup),
    outcome (run h (createGroup group userName) s) = Done newGroup ->
    writes (trace (run h (createGroup group userName) s)) =
    [Ev (Create group) (inr newGroup);
     Ev (AddUsersToGroup (g_id newGroup) (cg_users group) userName) (inr tt);
     Ev (EventStore (mkEvent GROUP_CREATED userName (DataInput group) None))
        (inr tt)].
Proof.
  intros S h s group userName newGroup.
  unfold createGroup. rewrite run_bind. unfold then_run.
  destruct (validateGroup_run h s group None) as (Hw & _ & _).
  destruct (outcome (run h (validateGroup group None) s))
    as [[] | e | e]; simpl; try discriminate.
  rewrite writes_app, Hw. simpl.
  repeat (answer h; try discriminate).
  intros [= <-].
  repeat match goal with x : unit |- _ => destruct x end.
  reflexivity.
Qed.

Lemma createGroup_returned_means_written_witness :
  writes (trace (run Demo.h (createGroup Demo.qa "admin") Demo.store)) =
  [Ev (Create Demo.qa) (inr (mkGroup 3 "qa" "testers" None));
   Ev (AddUsersToGroup (g_id (mkGroup 3 "qa" "testers" None))
         (cg_users Demo.qa) "admin") (inr tt);
   Ev (EventStore (mkEvent GROUP_CREATED "admin" (DataInput Demo.qa) None))
      (inr tt)].
Proof.
  apply (@createGroup_returned_means_written _ Demo.h Demo.store Demo.qa
           "admin" (mkGroup 3 "qa" "testers" None)).
  reflexivity.
Defined.

(** ** External synchronisation against any store *)

(** X10: a [syncExternalGroups] call on an array that returns has made
    exactly four store calls: it asked for the new groups of the user,
    added the user to the ids of exactly those groups (in the store's
    order, attributed to [createdBy]), asked for the old memberships only
    after that addition, and deleted exactly the rows the store named. *)
Theorem syncExternalGroups_returned_means_reconciled :
  forall S (h : Handler S) (s : S) (userId : Z) (names : list string)
         (createdBy : option string),
    let r := run h (syncExternalGroups userId (JsArray names) createdBy) s in
    outcome r = Done tt ->
    exists newGroups oldGroups s1 s2 s3,
      h _ (GetNewGroupsForExternalUser userId names) s = (inr newGroups, s1) /\
      h _ (AddUserToGroups userId (map g_id newGroups) createdBy) s1
        = (inr tt, s2) /\
      h _ (GetOldGroupsForExternalUser userId names) s2
        = (inr oldGroups, s3) /\
      h _ (DeleteUsersFromGroup oldGroups) s3 = (inr tt, final r) /\
      trace r =
      [Ev (GetNewGroupsForExternalUser userId names) (inr newGroups);
       Ev (AddUserToGroups userId (map g_id newGroups) createdBy) (inr tt);
       Ev (GetOldGroupsForExternalUser userId names) (inr oldGroups);
       Ev (DeleteUsersFromGroup oldGroups) (inr tt)].
Proof.
  intros S h s userId names createdBy. cbv zeta.
  unfold syncExternalGroups. simpl.
  repeat (answer h; try discriminate).
  intros _. repeat match goal with x : unit |- _ => destruct x end.
  do 5 eexists. repeat split; eassumption.
Qed.

Lemma syncExternalGroups_returned_means_reconciled_witness :
  let r := run Demo.h (syncExternalGroups 2 (JsArray ["ops"]) (Some "sso"))
             Demo.store in
  exists newGroups oldGroups s1 s2 s3,
    Demo.h (GetNewGroupsForExternalUser 2 ["ops"]) Demo.store
      = (inr newGroups, s1) /\
    Demo.h (AddUserToGroups 2 (map g_id newGroups) (Some "sso")) s1
      = (inr tt, s2) /\
    Demo.h (GetOldGroupsForExternalUser 2 ["ops"]) s2
      = (inr oldGroups, s3) /\
    Demo.h (DeleteUsersFromGroup oldGroups) s3 = (inr tt, final r) /\
    trace r =
    [Ev (GetNewGroupsForExternalUser 2 ["ops"]) (inr newGroups);
     Ev (AddUserToGroups 2 (map g_id newGroups) (Some "sso")) (inr tt);
     Ev (GetOldGroupsForExternalUser 2 ["ops"]) (inr oldGroups);
     Ev (DeleteUsersFromGroup oldGroups) (inr tt)].
Proof.
  apply (@syncExternalGroups_returned_means_reconciled _ Demo.h Demo.store
           2 ["ops"] (Some "sso")).
  reflexivity.
Defined.

(** X11: [syncExternalGroups] never raises an error of its own, and it
    never removes before it has added: for every store and argument, its
    writes are none, or they start with the addition; a removal is only
    ever attempted directly after an addition the store accepted, and
    nothing is written after a rejected addition. *)
Theorem syncExternalGroups_adds_before_it_removes :
  forall S (h : Handler S) (s : S) (userId : Z) (externalGroups : JsValue)
         (createdBy : option string),
    let r := run h (syncExternalGroups userId externalGroups createdBy) s in
    (forall e, outcome r <> Thrown e) /\
    (writes (trace r) = [] \/
     (exists gids answer,
         writes (trace r) =
         [Ev (AddUserToGroups userId gids createdBy) answer]) \/
     (exists gids rows answer,
         writes (trace r) =
         [Ev (AddUserToGroups userId gids createdBy) (inr tt);
          Ev (DeleteUsersFromGroup rows) answer])).
Proof.
  intros S h s userId externalGroups createdBy. cbv zeta.
  unfold syncExternalGroups.
  destruct (isArray externalGroups); simpl;
    [ | split; [discriminate | now left]].
  repeat (answer h;
          try (split; [discriminate | ];
               repeat match goal with x : unit |- _ => destruct x end;
               first [ left; reflexivity
                     | right; left; do 2 eexists; reflexivity
                     | right; right; do 3 eexists; reflexivity ])).
Qed.

(** ** The verdict of validation *)

Lemma validateGroup_outcome S (h : Handler S) s group existing taken hasRole :
  reads_preserve_state h ->
  fst (h _ (ExistsWithName (cg_name group)) s) = inr taken ->
  (forall gid, cg_id group = Some gid ->
               fst (h _ (HasProjectRole gid) s) = inr hasRole) ->
  outcome (run h (validateGroup group existing) s) =
  if negb (truthy_string (cg_name group))
  then Thrown (BadDataError "Group name cannot be empty")
  else if match existing with
          | Some ex => negb (g_name ex =? cg_name group)%string
          | None => true
          end && taken
  then Thrown (NameExistsError "Group name already exists")
  else if truthy_num (cg_id group) && truthy_num (cg_rootRole group)
          && hasRole
  then Thrown (BadDataError conflict_msg)
  else Done tt.
Proof.
  intros Hr Htaken Hrole.
  apply read_answer in Htaken; [ | exact Hr | reflexivity].
  assert (Hlast : forall s0, s0 = s ->
            outcome
              (run h
                 match cg_id group with
                 | Some gid =>
                     if truthy_num (cg_id group)
                        && truthy_num (cg_rootRole group)
                     then has <- await (HasProjectRole gid) ;;
                          if (has : bool)
                          then Throw (BadDataError conflict_msg)
                          else Ret tt
                     else Ret tt
                 | None => Ret tt
                 end s0) =
            if truthy_num (cg_id group) && truthy_num (cg_rootRole group)
               && hasRole
            then Thrown (BadDataError conflict_msg) else Done tt).
  { intros s0 ->. destruct (cg_id group) as [gid |] eqn:Eid;
      [ | reflexivity].
    specialize (Hrole gid eq_refl).
    apply read_answer in Hrole; [ | exact Hr | reflexivity].
    destruct (truthy_num (Some gid) && truthy_num (cg_rootRole group));
      simpl; [ | reflexivity].
    rewrite Hrole. simpl. now destruct hasRole. }
  unfold validateGroup.
  destruct (negb (truthy_string (cg_name group))); simpl; [reflexivity | ].
  destruct (match existing with
            | Some ex => negb (g_name ex =? cg_name group)%string
            | None => true
            end); simpl.
  - rewrite Htaken. simpl. destruct taken; simpl; [reflexivity | ].
    now apply Hlast.
  - now apply Hlast.
Qed.

(** X12: against a store whose reads leave its state alone and which
    answers the name lookup with [taken] and the project-role lookup with
    [hasRole], [validateGroup] succeeds exactly when the name is not empty,
    the name is the one of the given existing group or is not taken, and it
    is not the case that the payload has a truthy id and a truthy root role
    while the group has a project role. *)
Theorem validateGroup_succeeds_iff :
  forall S (h : Handler S) (s : S) (group : ICreateGroupModel)
         (existing : option IGroup) (taken hasRole : bool),
    reads_preserve_state h ->
    fst (h _ (ExistsWithName (cg_name group)) s) = inr taken ->
    (forall gid, cg_id group = Some gid ->
                 fst (h _ (HasProjectRole gid) s) = inr hasRole) ->
    (outcome (run h (validateGroup group existing) s) = Done tt <->
     cg_name group <> "" /\
     ((exists ex, existing = Some ex /\ g_name ex = cg_name group) \/
      taken = false) /\
     ~ (truthy_num (cg_id group) = true /\
        truthy_num (cg_rootRole group) = true /\ hasRole = true)).
Proof.
  intros S h s group existing taken hasRole Hr Htaken Hrole.
  rewrite (@validateGroup_outcome _ h s group existing taken hasRole Hr Htaken
             Hrole).
  unfold truthy_string.
  destruct (cg_name group =? "")%string eqn:Ename; simpl.
  { apply String.eqb_eq in Ename. split; [discriminate | ].
    intros (Hne & _). now elim Hne. }
  apply String.eqb_neq in Ename.
  assert (Hname :
            match existing with
            | Some ex => negb (g_name ex =? cg_name group)%string
            | None => true
            end && taken = false <->
            (exists ex, existing = Some ex /\ g_name ex = cg_name group) \/
            taken = false).
  { destruct existing as [ex |]; simpl.
    - destruct (g_name ex =? cg_name group)%string eqn:Esame; simpl.
      + apply String.eqb_eq in Esame. split; [ | reflexivity].
        intros _. left. now exists ex.
      + apply String.eqb_neq in Esame. split; [now right | ].
        intros [(ex' & [= <-] & Hsame) | Hfree]; [now elim Esame | exact Hfree].
    - split; [now right | ]. now intros [(ex & [=] & _) | Hfree]. }
  destruct (match existing with
            | Some ex => negb (g_name ex =? cg_name group)%string
            | None => true
            end && taken); simpl.
  { split; [discriminate | ]. intros (_ & Hfree & _).
    apply Hname in Hfree. discriminate. }
  destruct (truthy_num (cg_id group)), (truthy_num (cg_rootRole group)),
    hasRole; simpl;
    (split;
     [ first [ discriminate
             | intros _; split; [exact Ename | split;
                 [now apply Hname | intros (H1 & H2 & H3); discriminate]] ]
     | first [ reflexivity
             | intros (_ & _ & Hno); elim Hno; auto ] ]).
Qed.

Lemma validateGroup_succeeds_iff_witness :
  outcome (run Demo.h
             (validateGroup Demo.rooted_ops
                (Some (mkGroup 2 "ops" "operators" None))) Demo.store)
    = Done tt <->
  cg_name Demo.rooted_ops <> "" /\
  ((exists ex, Some (mkGroup 2 "ops" "operators" None) = Some ex /\
               g_name ex = cg_name Demo.rooted_ops) \/
   true = false) /\
  ~ (truthy_num (cg_id Demo.rooted_ops) = true /\
     truthy_num (cg_rootRole Demo.rooted_ops) = true /\ false = true).
Proof.
  apply (@validateGroup_succeeds_iff _ Demo.h Demo.store Demo.rooted_ops
           (Some (mkGroup 2 "ops" "operators" None)) true false).
  - apply Mem_reads_preserve_state.
  - reflexivity.
  - intros gid [= <-]. reflexivity.
Defined.

Lemma name_check_fires_iff (group : ICreateGroupModel)
    (existing : option IGroup) (taken : bool) :
  match existing with
  | Some ex => negb (g_name ex =? cg_name group)%string
  | None => true
  end && taken = true <->
  (forall ex, existing = Some ex -> g_name ex <> cg_name group) /\
  taken = true.
Proof.
  destruct existing as [ex |]; simpl.
  - destruct (g_name ex =? cg_name group)%string eqn:Esame; simpl.
    + apply String.eqb_eq in Esame. split; [discriminate | ].
      intros [Hdiff _]. now elim (Hdiff ex eq_refl).
    + apply String.eqb_neq in Esame. split.
      * intros ->. split; [ | reflexivity]. now intros ex' [= <-].
      * now intros [_ ->].
  - split; [intros -> | now intros [_ ->]].
    split; [discriminate | reflexivity].
Qed.

(** X13: the errors of [validateGroup] come in a fixed order of priority.
    Against a store whose reads leave its state alone and which answers
    the name lookup with [taken] and the project-role lookup with
    [hasRole]: the empty-name error is raised exactly when the name is
    empty; the name-collision error exactly when the name is not empty,
    differs from the name of the given existing group (if any) and is
    taken; the role-conflict error exactly when neither of these applies
    and the payload has a truthy id and a truthy root role while the group
    has a project role. *)
Theorem validateGroup_error_conditions :
  forall S (h : Handler S) (s : S) (group : ICreateGroupModel)
         (existing : option IGroup) (taken hasRole : bool),
    reads_preserve_state h ->
    fst (h _ (ExistsWithName (cg_name group)) s) = inr taken ->
    (forall gid, cg_id group = Some gid ->
                 fst (h _ (HasProjectRole gid) s) = inr hasRole) ->
    let v := outcome (run h (validateGroup group existing) s) in
    let collides :=
      (forall ex, existing = Some ex -> g_name ex <> cg_name group) /\
      taken = true in
    (v = Thrown (BadDataError "Group name cannot be empty") <->
     cg_name group = "") /\
    (v = Thrown (NameExistsError "Group name already exists") <->
     cg_name group <> "" /\ collides) /\
    (v = Thrown (BadDataError conflict_msg) <->
     cg_name group <> "" /\ ~ collides /\
     truthy_num (cg_id group) = true /\
     truthy_num (cg_rootRole group) = true /\ hasRole = true).
Proof.
  intros S h s group existing taken hasRole Hr Htaken Hrole. cbv zeta.
  rewrite (@validateGroup_outcome _ h s group existing taken hasRole Hr Htaken
             Hrole).
  unfold truthy_string.
  pose proof (name_check_fires_iff group existing taken) as Hfires.
  destruct (cg_name group =? "")%string eqn:Ename; simpl.
  { apply String.eqb_eq in Ename.
    repeat split; try discriminate; try (intros _; exact Ename);
      intros (Hne & _); now elim Hne. }
  apply String.eqb_neq in Ename.
  destruct (match existing with
            | Some ex => negb (g_name ex =? cg_name group)%string
            | None => true
            end && taken); simpl.
  { assert (Hc : (forall ex, existing = Some ex ->
                             g_name ex <> cg_name group) /\ taken = true)
      by now apply Hfires.
    repeat split; try discriminate; try (intros Hempty; now elim Ename);
      try exact Ename; try apply Hc.
    intros (_ & Hnot & _). now elim Hnot. }
  assert (Hc : ~ ((forall ex, existing = Some ex ->
                              g_name ex <> cg_name group) /\ taken = true)).
  { intros Hc. apply Hfires in Hc. discriminate. }
  destruct (truthy_num (cg_id group)), (truthy_num (cg_rootRole group)),
    hasRole; simpl;
    (split; [split; [discriminate | intros Hempty; now elim Ename] | ];
     split; [split; [discriminate | intros (_ & Hyes); now elim Hc] | ];
     split;
     [ first [ discriminate | intros _; repeat split; auto ]
     | first [ reflexivity
             | intros (_ & _ & H1 & H2 & H3); discriminate ] ]).
Qed.

Lemma validateGroup_error_conditions_witness :
  let v := outcome (run Demo.h
                      (validateGroup Demo.rooted_and_renamed
                         (Some Demo.devs)) Demo.store) in
  let collides :=
    (forall ex, Some Demo.devs = Some ex ->
                g_name ex <> cg_name Demo.rooted_and_renamed) /\
    true = true in
  (v = Thrown (BadDataError "Group name cannot be empty") <->
   cg_name Demo.rooted_and_renamed = "") /\
  (v = Thrown (NameExistsError "Group name already exists") <->
   cg_name Demo.rooted_and_renamed <> "" /\ collides) /\
  (v = Thrown (BadDataError conflict_msg) <->
   cg_name Demo.rooted_and_renamed <> "" /\ ~ collides /\
   truthy_num (cg_id Demo.rooted_and_renamed) = true /\
   truthy_num (cg_rootRole Demo.rooted_and_renamed) = true /\ true = true).
Proof.
  apply (@validateGroup_error_conditions _ Demo.h Demo.store
           Demo.rooted_and_renamed (Some Demo.devs) true true).
  - apply Mem_reads_preserve_state.
  - reflexivity.
  - intros gid [= <-]. reflexivity.
Defined.

Lemma filter_hasProjectRole_app t1 t2 :
  filter ev_is_hasProjectRole (t1 ++ t2) =
  filter ev_is_hasProjectRole t1 ++ filter ev_is_hasProjectRole t2.
Proof. apply filter_app. Qed.

Lemma validateGroup_without_root_role S (h : Handler S) s group existing :
  truthy_num (cg_rootRole group) = false ->
  filter ev_is_hasProjectRole
    (trace (run h (validateGroup group existing) s)) = [] /\
  outcome (run h (validateGroup group existing) s)
    <> Thrown (BadDataError conflict_msg).
Proof.
  intros Hroot. unfold validateGroup. rewrite Hroot, andb_false_r.
  destruct (negb (truthy_string (cg_name group))); simpl;
    [split; [reflexivity | discriminate] | ].
  destruct (match existing with
            | Some ex => negb (g_name ex =? cg_name group)%string
            | None => true
            end); simpl.
  - answer h; [split; [reflexivity | discriminate] | ].
    destruct x; simpl; [split; [reflexivity | discriminate] | ].
    destruct (cg_id group); simpl; split; try reflexivity; discriminate.
  - destruct (cg_id group); simpl; split; try reflexivity; discriminate.
Qed.

(** X14: the role-conflict check is also guarded on the root role.  For
    every payload whose root role is absent or falsy (zero),
    [validateGroup], [createGroup] and [updateGroup] never ask the store
    whether the group has a project role and never raise the role-conflict
    error, whatever the id and the store. *)
Theorem conflict_check_guarded_on_root_role :
  forall S (h : Handler S) (s : S) (group : ICreateGroupModel)
         (existing : option IGroup) userName,
    truthy_num (cg_rootRole group) = false ->
    let quiet {A} (r : Run S A) :=
      filter ev_is_hasProjectRole (trace r) = [] /\
      outcome r <> Thrown (BadDataError conflict_msg) in
    quiet (run h (validateGroup group existing) s) /\
    quiet (run h (createGroup group userName) s) /\
    quiet (run h (updateGroup group userName) s).
Proof.
  intros S h s group existing userName Hroot. cbv zeta.
  split; [now apply validateGroup_without_root_role | split].
  - unfold createGroup. rewrite run_bind. unfold then_run.
    destruct (validateGroup_without_root_role h s group None Hroot)
      as [Ht Ho].
    destruct (outcome (run h (validateGroup group None) s)) as [[] | e | e];
      simpl; try (split; [exact Ht | congruence]).
    rewrite filter_hasProjectRole_app, Ht. simpl.
    repeat (answer h; try (split; [reflexivity | discriminate])).
  - unfold updateGroup. simpl.
    answer h; [split; [reflexivity | discriminate] | ].
    fold (validateGroup group (Some x)). rewrite run_bind. unfold then_run.
    destruct (validateGroup_without_root_role h s0 group (Some x) Hroot)
      as [Ht Ho].
    destruct (outcome (run h (validateGroup group (Some x)) s0))
      as [[] | e | e]; simpl; try (split; [exact Ht | congruence]).
    rewrite filter_hasProjectRole_app, Ht. simpl.
    repeat (answer h; try (split; [reflexivity | discriminate])).
Qed.

Lemma conflict_check_guarded_on_root_role_witness :
  (filter ev_is_hasProjectRole
     (trace (run Demo.h (updateGroup Demo.bob_carol_dave "admin")
               Demo.store)) = [] /\
   outcome (run Demo.h (updateGroup Demo.bob_carol_dave "admin") Demo.store)
     <> Thrown (BadDataError conflict_msg)).
Proof.
  apply (proj2 (proj2
           (@conflict_check_guarded_on_root_role _ Demo.h Demo.store
              Demo.bob_carol_dave None "admin" eq_refl))).
Defined.

(** X15: an [updateGroup] that changes the name is checked for a
    collision.  When the store returns the prior state, the payload's name
    is not empty and differs from the stored name, and the store reports
    the new name as held, the call fails with the name-collision error
    after those two reads, before any write. *)
Theorem updateGroup_rename_to_held_name :
  forall S (h : Handler S) (s s1 : S) (group : ICreateGroupModel) userName
         (preData : IGroup),
    h _ (Get (cg_id group)) s = (inr preData, s1) ->
    cg_name group <> "" ->
    g_name preData <> cg_name group ->
    fst (h _ (ExistsWithName (cg_name group)) s1) = inr true ->
    let r := run h (updateGroup group userName) s in
    outcome r = Thrown (NameExistsError "Group name already exists") /\
    trace r = [Ev (Get (cg_id group)) (inr preData);
               Ev (ExistsWithName (cg_name group)) (inr true)] /\
    writes (trace r) = [].
Proof.
  intros S h s s1 group userName preData Hget Hne Hdiff Hheld. cbv zeta.
  unfold updateGroup, validateGroup, truthy_string. simpl. rewrite Hget.
  apply String.eqb_neq in Hne, Hdiff. rewrite Hne, Hdiff. simpl.
  destruct (h bool (ExistsWithName (cg_name group)) s1) as [a s2].
  simpl in Hheld. subst a. simpl. repeat split.
Qed.

Lemma updateGroup_rename_to_held_name_witness :
  let r := run Demo.h (updateGroup Demo.rooted_and_renamed "admin")
             Demo.store in
  outcome r = Thrown (NameExistsError "Group name already exists") /\
  trace r = [Ev (Get (cg_id Demo.rooted_and_renamed)) (inr Demo.devs);
             Ev (ExistsWithName (cg_name Demo.rooted_and_renamed))
                (inr true)] /\
  writes (trace r) = [].
Proof.
  apply (@updateGroup_rename_to_held_name _ Demo.h Demo.store Demo.store
           Demo.rooted_and_renamed "admin" Demo.devs).
  - reflexivity.
  - discriminate.
  - discriminate.
  - reflexivity.
Defined.

(** X16: a group the store cannot load.  When the store rejects the [get],
    [getGroup] and [updateGroup] end with the store's own error after that
    single call; [updateGroup] does so before validating, so even a
    payload with an empty name is answered with the store's error, not
    with a validation error. *)
Theorem missing_group_surfaces_from_store :
  forall S (h : Handler S) (s s' : S) (id : Z) (group : ICreateGroupModel)
         userName (e : StoreError),
    cg_id group = Some id ->
    h _ (Get (Some id)) s = (inl e, s') ->
    run h (getGroup id) s = mkRun (Rejected e) s' [Ev (Get (Some id)) (inl e)]
    /\
    run h (updateGroup group userName) s
    = mkRun (Rejected e) s' [Ev (Get (Some id)) (inl e)].
Proof.
  intros S h s s' id group userName e Hid Hget.
  unfold getGroup, updateGroup. rewrite Hid. simpl. rewrite Hget.
  split; reflexivity.
Qed.

Lemma missing_group_surfaces_from_store_witness :
  run Demo.h (getGroup 99) Demo.store
  = mkRun (Rejected (NotFoundError "No group with that id")) Demo.store
      [Ev (Get (Some 99)) (inl (NotFoundError "No group with that id"))]
  /\
  run Demo.h (updateGroup (mkCreateGroup (Some 99) "" "" None []) "admin")
    Demo.store
  = mkRun (Rejected (NotFoundError "No group with that id")) Demo.store
      [Ev (Get (Some 99)) (inl (NotFoundError "No group with that id"))].
Proof.
  apply (@missing_group_surfaces_from_store _ Demo.h Demo.store Demo.store 99
           (mkCreateGroup (Some 99) "" "" None []) "admin");
    reflexivity.
Defined.

(** X17: an [updateGroup] call that returns a group has made exactly these
    store calls, in this order: the [get] of the prior state, the reads of
    validation, the update of the payload (answered with the returned
    group), the listing of the group's membership rows, one membership
    update for the returned group's id, attributed to the actor, carrying
    the diff of the payload's user list against the rows just listed, and
    the update event.  So the rows are listed after the update is
    persisted, and the writes are the update, that membership update and
    the event, nothing else. *)
Theorem updateGroup_returned_means_written :
  forall S (h : Handler S) (s : S) (group : ICreateGroupModel) userName
         (newGroup : IGroup),
    outcome (run h (updateGroup group userName) s) = Done newGroup ->
    exists preData existing s1,
      h _ (Get (cg_id group)) s = (inr preData, s1) /\
      outcome (run h (validateGroup group (Some preData)) s1) = Done tt /\
      trace (run h (updateGroup group userName) s) =
      Ev (Get (cg_id group)) (inr preData)
      :: trace (run h (validateGroup group (Some preData)) s1)
      ++ [Ev (Update group) (inr newGroup);
          Ev (GetAllUsersByGroups [cg_id group]) (inr existing);
          Ev (UpdateGroupUsers (g_id newGroup) (newUsers group existing)
                (deletableUsers group existing) userName) (inr tt);
          Ev (EventStore (mkEvent GROUP_UPDATED userName (DataGroup newGroup)
                            (Some preData))) (inr tt)] /\
      writes (trace (run h (validateGroup group (Some preData)) s1)) = [] /\
      writes (trace (run h (updateGroup group userName) s)) =
      [Ev (Update group) (inr newGroup);
       Ev (UpdateGroupUsers (g_id newGroup) (newUsers group existing)
             (deletableUsers group existing) userName) (inr tt);
       Ev (EventStore (mkEvent GROUP_UPDATED userName (DataGroup newGroup)
                         (Some preData))) (inr tt)].
Proof.
  intros S h s group userName newGroup.
  unfold updateGroup. simpl. answer h; [discriminate | ].
  fold (validateGroup group (Some x)). rewrite run_bind. unfold then_run.
  destruct (validateGroup_run h s0 group (Some x)) as (Hw & _ & _).
  destruct (outcome (run h (validateGroup group (Some x)) s0))
    as [[] | e | e] eqn:Evalid; simpl; try discriminate.
  rewrite writes_app, Hw. simpl.
  repeat (answer h; try discriminate).
  intros [= <-].
  repeat match goal with u : unit |- _ => destruct u end.
  exists x, x1, s0.
  split; [reflexivity | split; [first [exact Evalid | reflexivity] | ]].
  split; [reflexivity | split; [exact Hw | reflexivity]].
Qed.

Lemma updateGroup_returned_means_written_witness :
  exists preData existing s1,
    Demo.h (Get (cg_id Demo.bob_carol_dave)) Demo.store
      = (inr preData, s1) /\
    outcome (run Demo.h (validateGroup Demo.bob_carol_dave (Some preData))
               s1) = Done tt /\
    trace (run Demo.h (updateGroup Demo.bob_carol_dave "admin") Demo.store) =
    Ev (Get (cg_id Demo.bob_carol_dave)) (inr preData)
    :: trace (run Demo.h (validateGroup Demo.bob_carol_dave (Some preData))
                s1)
    ++ [Ev (Update Demo.bob_carol_dave) (inr Demo.devs);
        Ev (GetAllUsersByGroups [cg_id Demo.bob_carol_dave]) (inr existing);
        Ev (UpdateGroupUsers (g_id Demo.devs)
              (newUsers Demo.bob_carol_dave existing)
              (deletableUsers Demo.bob_carol_dave existing) "admin")
           (inr tt);
        Ev (EventStore (mkEvent GROUP_UPDATED "admin" (DataGroup Demo.devs)
                          (Some preData))) (inr tt)] /\
    writes (trace (run Demo.h
                     (validateGroup Demo.bob_carol_dave (Some preData)) s1))
      = [] /\
    writes (trace (run Demo.h (updateGroup Demo.bob_carol_dave "admin")
                     Demo.store)) =
    [Ev (Update Demo.bob_carol_dave) (inr Demo.devs);
     Ev (UpdateGroupUsers (g_id Demo.devs)
           (newUsers Demo.bob_carol_dave existing)
           (deletableUsers Demo.bob_carol_dave existing) "admin") (inr tt);
     Ev (EventStore (mkEvent GROUP_UPDATED "admin" (DataGroup Demo.devs)
                       (Some preData))) (inr tt)].
Proof.
  apply (@updateGroup_returned_means_written _ Demo.h Demo.store
           Demo.bob_carol_dave "admin" Demo.devs).
  reflexivity.
Defined.
